(** * AntennaLab: standing-wave nodes, resonance guidance and impedance bounds

    A shallow embedding of

      - [src/lib/physics/constants.ts],
      - [src/lib/physics/nodescalculator.ts] (class [NodesCalculator]),
      - the second [NodesCalculator] class that lives at the top of
        [src/components/antenna-visualization.tsx],
      - the numeric parts of the components that use them: the node counts,
        the SWR fallback and the chart domain of
        [src/components/antenna-performance.tsx], the sample positions, the
        feed marker and the Yagi elements of
        [src/components/antenna-visualization.tsx], and the form handling of
        the page component ([src/unnamed/part_000]),

    together with the parts of the analytic core that the repository imports
    but does not ship ([physicsutils], the impedance calculator), which are
    written down from the specification and marked as such.

    Number model.  A JavaScript [number] is modelled by an exact rational
    ([Q]); [===] on numbers is [Qeq_bool], [<] is [Qltb].  [Math.PI] is the
    exact rational value of the IEEE double the runtime exposes.  Rounding of
    intermediate results, NaN and the infinities are outside this model, and
    a division is only meaningful for a non-zero divisor. *)

From Stdlib Require Import QArith Qabs Qminmax Qround Qfield ZArith.
From Stdlib Require Import List Bool Lia Lqa String.
From Stdlib Require Import Sorted SetoidList.
From Stdlib Require Import Decimal DecimalString DecimalZ DecimalPos.
Import ListNotations.

Open Scope Q_scope.

(* ================================================================== *)
(** * The JavaScript runtime, as far as the sources use it            *)
(* ================================================================== *)

Module JS.

(** [a < b] on numbers. *)
Definition Qltb (a b : Q) : bool := negb (Qle_bool b a).

(** A loop counter used as a number. *)
Definition num (n : nat) : Q := inject_Z (Z.of_nat n).

(** [Math.PI]: the double 0x400921FB54442D18, i.e. 884279719003555 / 2^48. *)
Definition Math_PI : Q := 884279719003555 # 281474976710656.

Definition Math_abs (x : Q) : Q := Qabs x.
Definition Math_max (a b : Q) : Q := Qmax a b.
Definition Math_min (a b : Q) : Q := Qmin a b.

(** [Math.round] rounds to the nearest integer, ties towards +infinity. *)
Definition Math_round (x : Q) : Z := Qfloor (x + (1 # 2)).

Definition Math_ceil (x : Q) : Z := Qceiling x.

(** [arr.push(x)]. *)
Definition push (arr : list Q) (x : Q) : list Q := arr ++ [x].

(** [[...new Set(arr)]]: the first occurrence of every value, in insertion
    order. *)
Fixpoint spread_Set (arr : list Q) : list Q :=
  match arr with
  | [] => []
  | x :: rest => x :: filter (fun y => negb (Qeq_bool x y)) (spread_Set rest)
  end.

(** [arr.sort((a, b) => a - b)]: a stable ascending sort. *)
Fixpoint sort_insert (x : Q) (sorted : list Q) : list Q :=
  match sorted with
  | [] => [x]
  | y :: rest => if Qle_bool x y then x :: sorted else y :: sort_insert x rest
  end.

Fixpoint sort_asc (arr : list Q) : list Q :=
  match arr with
  | [] => []
  | x :: rest => sort_insert x (sort_asc rest)
  end.

(** [for (let n = start; n < bound; n++) body], threading the array the
    body pushes to. *)
Definition for_range (start bound : nat)
           (body : nat -> list Q -> list Q) (arr : list Q) : list Q :=
  fold_left (fun acc n => body n acc) (seq start (bound - start)) arr.

(** [Math.floor]. *)
Definition Math_floor (x : Q) : Z := Qfloor x.

(** [`${n}`] for an integer [n]: its decimal digits, with a leading minus
    sign when negative (the runtime prints integers this way below 10^21). *)
Definition Number_toString (n : Z) : string := NilZero.string_of_int (Z.to_int n).

(** [arr[i]] for an integer index: [undefined] ([None]) outside the array. *)
Definition Array_get {A : Type} (arr : list A) (i : Z) : option A :=
  if (i <? 0)%Z then None else nth_error arr (Z.to_nat i).

(** [s || fallback] on a possibly undefined string: the empty string and
    [undefined] are falsy. *)
Definition string_or (s : option string) (fallback : string) : string :=
  match s with
  | Some v => if (v =? "")%string then fallback else v
  | None => fallback
  end.

(** [x || fallback] on a possibly undefined number: 0 and [undefined] are
    falsy. *)
Definition number_or (x : option Q) (fallback : Q) : Q :=
  match x with
  | Some v => if Qeq_bool v 0 then fallback else v
  | None => fallback
  end.

(** [n || fallback] on a possibly undefined integer. *)
Definition integer_or (n : option Z) (fallback : Z) : Z :=
  match n with
  | Some v => if (v =? 0)%Z then fallback else v
  | None => fallback
  end.

(** [for (let i = start; i < bound; i++) body] over any state. *)
Definition for_loop {S : Type} (start bound : nat) (body : nat -> S -> S) (s : S) : S :=
  fold_left (fun acc i => body i acc) (seq start (bound - start)) s.

End JS.

(* ================================================================== *)
(** * [src/lib/physics/constants.ts]                                  *)
(* ================================================================== *)

Module PHYSICS_CONSTANTS.
Definition SPEED_OF_LIGHT : Q := 299792458.
Definition FREE_SPACE_IMPEDANCE : Q := 376.730313668.
Definition STANDARD_IMPEDANCE : Q := 50.
Definition DIPOLE_BASE_RESISTANCE : Q := 73.1.
Definition MM_TO_M : Q := 0.001.
Definition WIRE_DIAMETER_DIVISOR : Q := 2000.
Definition HIGH_IMPEDANCE_LIMIT : Q := 15000.
Definition CURRENT_NULL_RESISTANCE : Q := 2000.
Definition HALF_WAVE_END_FED_RESISTANCE : Q := 2500.
Definition END_FED_HIGH_IMPEDANCE : Q := 5000.
Definition RESONANCE_REACTANCE_THRESHOLD : Q := 15.
Definition RESONANCE_PERCENTAGE_THRESHOLD : Q := 0.2.
End PHYSICS_CONSTANTS.

Module PHYSICS_LIMITS.
Definition MIN_RESISTANCE : Q := 0.1.
Definition MAX_RESISTANCE : Q := 50000.
Definition MIN_REACTANCE : Q := -5000.
Definition MAX_REACTANCE : Q := 5000.
Definition MIN_SWR : Q := 1.0.
Definition MAX_SWR : Q := 999.
End PHYSICS_LIMITS.

Module NODES_CONFIG.
Definition POSITION_TOLERANCE : Q := 0.01.
Definition MIN_AMPLITUDE_THRESHOLD : Q := 0.1.
Definition MAX_HARMONICS : nat := 8.
Definition EDGE_BUFFER : Q := 0.1.
End NODES_CONFIG.

(* ================================================================== *)
(** * The values the calculators exchange                             *)
(* ================================================================== *)

Record Impedance : Type := mkImpedance {
  resistance : Q;
  reactance : Q
}.

(** What the calculators read from the antenna model they are handed: the
    properties [length], [frequency], [feedPosition], [waveNumber],
    [electricalLength], [wavelength], and the result of the method
    [calculateImpedance()]. *)
Module AntennaModel.
Record t : Type := mk {
  length : Q;
  frequency : Q;
  feedPosition : Q;
  waveNumber : Q;
  electricalLength : Q;
  wavelength : Q;
  calculateImpedance : Impedance
}.
End AntennaModel.

(** The object [calculateNodesAndAntinodes] returns. *)
Record NodePair : Type := mkNodePair {
  nodes : list Q;
  antinodes : list Q
}.

Record NodesResult : Type := mkNodesResult {
  current : NodePair;
  voltage : NodePair;
  harmonic : Z;
  isResonant : bool
}.

(** The text of [guidance].  The two templated messages keep the numbers that
    the template prints with [toFixed(1)]:
      - [WellMatched]     "Antenna is well-matched"
      - [TooShort a t]    "Too Short - Add ~<a>m wire (Target: <t>m)"
      - [TooLong a t]     "Too Long - Remove ~<a>m wire (Target: <t>m)"
      - [NearlyResonant]  "Nearly Resonant - Minor adjustment needed" *)
Inductive GuidanceText : Type :=
| WellMatched
| TooShort (lengthAdjustment targetLength : Q)
| TooLong (lengthAdjustment targetLength : Q)
| NearlyResonant.

(** The object [getResonanceGuidance] returns.  [guidanceReactance] is its
    [reactance] key, which the resonant case leaves out ([None]);
    [lengthAdjustment] is [null] ([None]) in the resonant case. *)
Record ResonanceGuidance : Type := mkGuidance {
  status : string;
  guidance : GuidanceText;
  color : string;
  lengthAdjustment : option Q;
  guidanceReactance : option Q
}.

(** An entry of [commonResonantLengths]: the keys [length] and [name]. *)
Record ResonantLength : Type := mkResonantLength {
  resonantLength : Q;
  resonantName : string
}.

(** The [closestResonant] key of the detailed info: the chosen entry spread,
    plus [difference] and [percentOff]. *)
Record ClosestResonant : Type := mkClosestResonant {
  closestLength : Q;
  closestName : string;
  difference : Q;
  percentOff : Q
}.

(** The object [getDetailedResonanceInfo] returns: the keys of [basicInfo]
    spread, then [guidance], [impedance] and [closestResonant]. *)
Record DetailedResonanceInfo : Type := mkDetailedResonanceInfo {
  basicInfo : NodesResult;
  detailGuidance : ResonanceGuidance;
  detailImpedance : Impedance;
  closestResonant : ClosestResonant
}.

(* ================================================================== *)
(** * [physicsutils] (imported by the sources, not part of them)      *)
(* ================================================================== *)

Module PhysicsUtils.
Import PHYSICS_CONSTANTS.

(** Modelled from the spec: [PhysicsUtils.isResonant] of
    [src/lib/physics/physicsutils], which the sources import but which is
    not among them.  "isResonant(impedance) -> bool =
    |reactance| < max(15, 0.2 * resistance)", with the two thresholds taken
    from [PHYSICS_CONSTANTS]. *)
Definition isResonant (impedance : Impedance) : bool :=
  JS.Qltb (JS.Math_abs (reactance impedance))
          (JS.Math_max RESONANCE_REACTANCE_THRESHOLD
                       (RESONANCE_PERCENTAGE_THRESHOLD * resistance impedance)).

(** Modelled from the spec: [clamp(v, lo, hi)] of the same module. *)
Definition clamp (v lo hi : Q) : Q := JS.Math_max lo (JS.Math_min hi v).

End PhysicsUtils.

(* ================================================================== *)
(** * [src/lib/physics/nodescalculator.ts]                            *)
(* ================================================================== *)

Module NodesCalculator.
Import JS NODES_CONFIG.

Definition _calculateCurrentNodes (length k feedPosition : Q) : list Q :=
  let nodes : list Q := [] in
  let halfLength := length / 2 in
  let nodes :=
    if Qeq_bool feedPosition 0 || Qeq_bool feedPosition 1
    then push (push nodes (- halfLength)) halfLength
    else push (push nodes (- halfLength)) halfLength in
  let nodes :=
    for_range 0 MAX_HARMONICS (fun n nodes =>
      let nodePosition := ((num n + 0.5) * Math_PI) / k in
      if Qltb nodePosition (halfLength - EDGE_BUFFER)
      then push (push nodes nodePosition) (- nodePosition)
      else nodes) nodes in
  sort_asc (spread_Set nodes).

Definition _calculateCurrentAntinodes (length k feedPosition : Q) : list Q :=
  let antinodes : list Q := [] in
  let halfLength := length / 2 in
  let antinodes :=
    if Qeq_bool feedPosition 0.5 then push antinodes 0
    else if Qeq_bool feedPosition 0 || Qeq_bool feedPosition 1 then
      let feedPos := if Qeq_bool feedPosition 0 then - halfLength else halfLength in
      push antinodes feedPos
    else
      let feedPos := (feedPosition - 0.5) * length in
      push antinodes feedPos in
  let antinodes :=
    for_range 1 MAX_HARMONICS (fun n antinodes =>
      let antinodePosition := (num n * Math_PI) / k in
      if Qltb antinodePosition (halfLength - EDGE_BUFFER)
      then push (push antinodes antinodePosition) (- antinodePosition)
      else antinodes) antinodes in
  sort_asc (spread_Set antinodes).

Definition _calculateVoltageNodes (length k feedPosition : Q) : list Q :=
  let nodes : list Q := [] in
  let halfLength := length / 2 in
  let nodes := if Qeq_bool feedPosition 0.5 then push nodes 0 else nodes in
  let nodes :=
    for_range 1 MAX_HARMONICS (fun n nodes =>
      let nodePosition := (num n * Math_PI) / k in
      if Qltb nodePosition (halfLength - EDGE_BUFFER)
      then push (push nodes nodePosition) (- nodePosition)
      else nodes) nodes in
  sort_asc (spread_Set nodes).

Definition _calculateVoltageAntinodes (length k feedPosition : Q) : list Q :=
  let antinodes : list Q := [] in
  let halfLength := length / 2 in
  let antinodes := push (push antinodes (- halfLength)) halfLength in
  let antinodes :=
    for_range 0 MAX_HARMONICS (fun n antinodes =>
      let antinodePosition := ((num n + 0.5) * Math_PI) / k in
      if Qltb antinodePosition (halfLength - EDGE_BUFFER)
         && Qltb EDGE_BUFFER antinodePosition
      then push (push antinodes antinodePosition) (- antinodePosition)
      else antinodes) antinodes in
  sort_asc (spread_Set antinodes).

Definition _getHarmonicNumber (electricalLength : Q) : Z :=
  let harmonicFloat := electricalLength * 2 in
  let harmonic := Math_round harmonicFloat in
  if (harmonic <=? 0)%Z then 1%Z else harmonic.

Definition _isResonant (model : AntennaModel.t) : bool :=
  let impedance := AntennaModel.calculateImpedance model in
  PhysicsUtils.isResonant impedance.

Definition calculateNodesAndAntinodes (model : AntennaModel.t) : NodesResult :=
  let length := AntennaModel.length model in
  let feedPosition := AntennaModel.feedPosition model in
  let k := AntennaModel.waveNumber model in
  let electricalLength := AntennaModel.electricalLength model in
  let currentNodes := _calculateCurrentNodes length k feedPosition in
  let currentAntinodes := _calculateCurrentAntinodes length k feedPosition in
  let voltageNodes := _calculateVoltageNodes length k feedPosition in
  let voltageAntinodes := _calculateVoltageAntinodes length k feedPosition in
  let harmonicNumber := _getHarmonicNumber electricalLength in
  {| current := {| nodes := currentNodes; antinodes := currentAntinodes |};
     voltage := {| nodes := voltageNodes; antinodes := voltageAntinodes |};
     harmonic := harmonicNumber;
     isResonant := _isResonant model |}.

Definition getResonanceGuidance (model : AntennaModel.t) : ResonanceGuidance :=
  let impedance := AntennaModel.calculateImpedance model in
  let reactance := reactance impedance in
  let isResonant := PhysicsUtils.isResonant impedance in
  if isResonant then
    {| status := "Resonant";
       guidance := WellMatched;
       color := "#00ff00";
       lengthAdjustment := None;
       guidanceReactance := None |}
  else
    let currentLength := AntennaModel.length model in
    let '(guidance, lengthAdjustment) :=
      if Qltb reactance (-15) then
        let reactanceRatio := Math_abs reactance / 377 in
        let lengthAdjustment := reactanceRatio * AntennaModel.wavelength model * 0.1 in
        let targetLength := currentLength + lengthAdjustment in
        (TooShort lengthAdjustment targetLength, lengthAdjustment)
      else if Qltb 15 reactance then
        let reactanceRatio := reactance / 377 in
        let lengthAdjustment := reactanceRatio * AntennaModel.wavelength model * 0.1 in
        let targetLength := currentLength - lengthAdjustment in
        (TooLong lengthAdjustment targetLength, lengthAdjustment)
      else
        (NearlyResonant, 0) in
    {| status := "Not Resonant";
       guidance := guidance;
       color := "#ff6600";
       lengthAdjustment := Some lengthAdjustment;
       guidanceReactance := Some reactance |}.

(** The list literal [commonResonantLengths] of [getDetailedResonanceInfo],
    and its element [commonResonantLengths[0]]. *)
Definition firstResonantLength (wavelength : Q) : ResonantLength :=
  {| resonantLength := wavelength * 0.25; resonantName := "Î»/4 (Quarter Wave)" |}.

Definition commonResonantLengths (wavelength : Q) : list ResonantLength :=
  [ firstResonantLength wavelength;
    {| resonantLength := wavelength * 0.5; resonantName := "Î»/2 (Half Wave)" |};
    {| resonantLength := wavelength * 0.75; resonantName := "3Î»/4 (Three Quarter)" |};
    {| resonantLength := wavelength * 1.0; resonantName := "Î» (Full Wave)" |};
    {| resonantLength := wavelength * 1.5; resonantName := "3Î»/2 (One and Half)" |} ].

(** The callback of [commonResonantLengths.forEach], on the pair of the
    variables [minDifference] and [closestResonant] it updates. *)
Definition closer (currentLength : Q) (state : Q * ResonantLength)
           (resonant : ResonantLength) : Q * ResonantLength :=
  let '(minDifference, closestResonant) := state in
  let difference := Math_abs (currentLength - resonantLength resonant) in
  if Qltb difference minDifference then (difference, resonant)
  else (minDifference, closestResonant).

(** The search for the closest entry: [closestResonant] starts as the first
    element of the list, and [forEach] visits every element. *)
Definition findClosestResonant (currentLength : Q) (first : ResonantLength)
           (all : list ResonantLength) : ResonantLength :=
  let closestResonant := first in
  let minDifference := Math_abs (currentLength - resonantLength closestResonant) in
  snd (fold_left (closer currentLength) all (minDifference, closestResonant)).

Definition getDetailedResonanceInfo (model : AntennaModel.t) : DetailedResonanceInfo :=
  let basicInfo := calculateNodesAndAntinodes model in
  let guidance := getResonanceGuidance model in
  let impedance := AntennaModel.calculateImpedance model in
  let wavelength := AntennaModel.wavelength model in
  let currentLength := AntennaModel.length model in
  let closestResonant :=
    findClosestResonant currentLength (firstResonantLength wavelength)
                        (commonResonantLengths wavelength) in
  {| basicInfo := basicInfo;
     detailGuidance := guidance;
     detailImpedance := impedance;
     closestResonant :=
       {| closestLength := resonantLength closestResonant;
          closestName := resonantName closestResonant;
          difference := currentLength - resonantLength closestResonant;
          percentOff := (currentLength - resonantLength closestResonant)
                        / resonantLength closestResonant * 100 |} |}.

Definition getHarmonicName (harmonicNumber : Z) : string :=
  let names := [""; "1st (Fundamental)"; "2nd"; "3rd"; "4th"; "5th"; "6th";
                "7th"; "8th"; "9th"; "10th"]%string in
  string_or (Array_get names harmonicNumber)
            (Number_toString harmonicNumber ++ "th").

End NodesCalculator.

(* ================================================================== *)
(** * [NodesCalculator] of [src/components/antenna-visualization.tsx] *)
(* ================================================================== *)

Module Visualization.
Import JS.

Definition _calculateCurrentNodes (length k : Q) : list Q :=
  let nodes : list Q := [] in
  let halfLength := length / 2 in
  let wavelength := 2 * Math_PI / k in
  let electricalLength := length / wavelength in
  let nodes := push (push nodes (- halfLength)) halfLength in
  let maxNodes := Math_ceil (electricalLength * 4) in
  let edgeBuffer := Math_min 0.1 (wavelength * 0.05) in
  let nodes :=
    for_range 0 (Z.to_nat maxNodes) (fun n nodes =>
      let nodePosition := ((num n + 0.5) * Math_PI) / k in
      if Qltb nodePosition (halfLength - edgeBuffer)
      then push (push nodes nodePosition) (- nodePosition)
      else nodes) nodes in
  sort_asc (spread_Set nodes).

Definition _calculateCurrentAntinodes (length k : Q) : list Q :=
  let antinodes : list Q := [] in
  let halfLength := length / 2 in
  let wavelength := 2 * Math_PI / k in
  let electricalLength := length / wavelength in
  let antinodes := push antinodes 0 in
  let maxAntinodes := Math_ceil (electricalLength * 4) in
  let edgeBuffer := Math_min 0.1 (wavelength * 0.05) in
  let antinodes :=
    for_range 1 (Z.to_nat maxAntinodes) (fun n antinodes =>
      let antinodePosition := (num n * Math_PI) / k in
      if Qltb antinodePosition (halfLength - edgeBuffer)
      then push (push antinodes antinodePosition) (- antinodePosition)
      else antinodes) antinodes in
  sort_asc (spread_Set antinodes).

Definition _calculateVoltageNodes (length k : Q) : list Q :=
  let nodes : list Q := [] in
  let halfLength := length / 2 in
  let wavelength := 2 * Math_PI / k in
  let electricalLength := length / wavelength in
  let nodes := push nodes 0 in
  let maxNodes := Math_ceil (electricalLength * 4) in
  let edgeBuffer := Math_min 0.1 (wavelength * 0.05) in
  let nodes :=
    for_range 1 (Z.to_nat maxNodes) (fun n nodes =>
      let nodePosition := (num n * Math_PI) / k in
      if Qltb nodePosition (halfLength - edgeBuffer)
      then push (push nodes nodePosition) (- nodePosition)
      else nodes) nodes in
  sort_asc (spread_Set nodes).

Definition _calculateVoltageAntinodes (length k : Q) : list Q :=
  let antinodes : list Q := [] in
  let halfLength := length / 2 in
  let wavelength := 2 * Math_PI / k in
  let electricalLength := length / wavelength in
  let antinodes := push (push antinodes (- halfLength)) halfLength in
  let maxAntinodes := Math_ceil (electricalLength * 4) in
  let edgeBuffer := Math_min 0.1 (wavelength * 0.05) in
  let centerBuffer := Math_max 0.1 (wavelength * 0.05) in
  let antinodes :=
    for_range 0 (Z.to_nat maxAntinodes) (fun n antinodes =>
      let antinodePosition := ((num n + 0.5) * Math_PI) / k in
      if Qltb antinodePosition (halfLength - edgeBuffer)
         && Qltb centerBuffer antinodePosition
      then push (push antinodes antinodePosition) (- antinodePosition)
      else antinodes) antinodes in
  sort_asc (spread_Set antinodes).

Definition _getHarmonicNumber (electricalLength : Q) : Z :=
  let harmonicFloat := electricalLength * 2 in
  let harmonic := Math_round harmonicFloat in
  if (harmonic <=? 0)%Z then 1%Z else harmonic.

Definition _isResonant (antennaModel : AntennaModel.t) : bool :=
  let impedance := AntennaModel.calculateImpedance antennaModel in
  Qltb (Math_abs (reactance impedance))
       (Math_max 15 (resistance impedance * 0.2)).

Definition calculateNodesAndAntinodes (antennaModel : AntennaModel.t) : NodesResult :=
  let k := AntennaModel.waveNumber antennaModel in
  let length := AntennaModel.length antennaModel in
  let electricalLength := AntennaModel.electricalLength antennaModel in
  let currentNodes := _calculateCurrentNodes length k in
  let currentAntinodes := _calculateCurrentAntinodes length k in
  let voltageNodes := _calculateVoltageNodes length k in
  let voltageAntinodes := _calculateVoltageAntinodes length k in
  let harmonicNumber := _getHarmonicNumber electricalLength in
  {| current := {| nodes := currentNodes; antinodes := currentAntinodes |};
     voltage := {| nodes := voltageNodes; antinodes := voltageAntinodes |};
     harmonic := harmonicNumber;
     isResonant := _isResonant antennaModel |}.

End Visualization.

(* ================================================================== *)
(** * The impedance calculator (imported by the sources, not part of them) *)
(* ================================================================== *)

Module ImpedanceCalculator.
Import JS PHYSICS_CONSTANTS PHYSICS_LIMITS.

(** What the calculator is written over.  [Math.sin], [Math.cos],
    [Math.tan], [Math.sqrt] and the [log10] helper are not rational
    functions: they are whatever the runtime provides.  The specification
    names three "log-based wire corrections" and the reactance of the
    end-fed high-impedance fallback without giving their formulas: they
    are functions of the length-to-radius ratio, and a constant. *)
Record Env : Type := mkEnv {
  Math_sin : Q -> Q;
  Math_cos : Q -> Q;
  Math_tan : Q -> Q;
  Math_sqrt : Q -> Q;
  log10 : Q -> Q;
  halfWaveCorrection : Q -> Q;
  wireRadiusCorrection : Q -> Q;
  quarterWaveCorrection : Q -> Q;
  endFedHighReactance : Q
}.

Section Calculator.

Variable env : Env.

(** Modelled from the spec: the centre-fed regime of section 4.1, step 3
    (the calculator's source file is not among the sources). *)
Definition centerFed (length electricalLength k lengthToRadiusRatio : Q) : Impedance :=
  if Qltb electricalLength 0.1 then
    {| resistance := Math_max (20 * (Math_PI * Math_PI) * (electricalLength * electricalLength)) 0.1;
       reactance := - (FREE_SPACE_IMPEDANCE / (2 * Math_PI))
                      * (log10 env (2 * lengthToRadiusRatio) - 0.577) |}
  else if Qltb (Math_abs (electricalLength - 0.5)) 0.05 then
    {| resistance := DIPOLE_BASE_RESISTANCE;
       reactance := halfWaveCorrection env lengthToRadiusRatio |}
  else
    let beta := k * length / 2 in
    if Qltb (Math_abs (Math_sin env beta)) 0.001 then
      {| resistance := CURRENT_NULL_RESISTANCE; reactance := 0 |}
    else
      {| resistance := DIPOLE_BASE_RESISTANCE * (Math_sin env beta * Math_sin env beta);
         reactance := 43.1 * (Math_cos env beta - Math_cos env (k * length)) / Math_sin env beta
                      + wireRadiusCorrection env lengthToRadiusRatio |}.

(** Modelled from the spec: the end-fed regime of section 4.1, step 4. *)
Definition endFed (length electricalLength k lengthToRadiusRatio : Q) : Impedance :=
  if Qltb (Math_abs (electricalLength - 0.25)) 0.02 then
    {| resistance := DIPOLE_BASE_RESISTANCE / 2;
       reactance := quarterWaveCorrection env lengthToRadiusRatio |}
  else if Qltb (Math_abs (electricalLength - 0.5)) 0.02 then
    {| resistance := HALF_WAVE_END_FED_RESISTANCE; reactance := 0 |}
  else
    let beta := k * length in
    if Qltb (Math_abs (Math_sin env beta)) 0.001 then
      {| resistance := END_FED_HIGH_IMPEDANCE; reactance := endFedHighReactance env |}
    else
      {| resistance := Math_min (DIPOLE_BASE_RESISTANCE / (Math_cos env beta * Math_cos env beta))
                                HIGH_IMPEDANCE_LIMIT;
         reactance := PhysicsUtils.clamp (FREE_SPACE_IMPEDANCE * Math_tan env (beta / 2))
                                         (-5000) 5000 |}.

(** Modelled from the spec: the off-centre regime of section 4.1, step 5. *)
Definition offCenter (length electricalLength k lengthToRadiusRatio feedPosition : Q)
  : Impedance :=
  let center := centerFed length electricalLength k lengthToRadiusRatio in
  let offset := Math_abs (feedPosition - 0.5) in
  let electricalOffset := offset * k * length in
  let transformFactor :=
    if Qltb offset 0.1 then 1 + 2 * offset
    else 1 / (Math_cos env electricalOffset * Math_cos env electricalOffset) in
  {| resistance := resistance center * transformFactor;
     reactance := reactance center * Math_sqrt env transformFactor
                  * Math_cos env electricalOffset |}.

(** Modelled from the spec: steps 1, 2 and 6 of section 4.1, i.e. the
    derived quantities, the dispatch on the feed position and the final
    clamp to [PHYSICS_LIMITS]. *)
Definition computeImpedance (length frequency feedPosition wireDiameter : Q) : Impedance :=
  let wavelength := SPEED_OF_LIGHT / (frequency * 1000000) in
  let electricalLength := length / wavelength in
  let k := 2 * Math_PI / wavelength in
  let wireRadius := wireDiameter * 0.0005 in
  let lengthToRadiusRatio := length / wireRadius in
  let raw :=
    if Qeq_bool feedPosition 0.5 then
      centerFed length electricalLength k lengthToRadiusRatio
    else if Qeq_bool feedPosition 0 || Qeq_bool feedPosition 1 then
      endFed length electricalLength k lengthToRadiusRatio
    else
      offCenter length electricalLength k lengthToRadiusRatio feedPosition in
  {| resistance := PhysicsUtils.clamp (resistance raw) MIN_RESISTANCE MAX_RESISTANCE;
     reactance := PhysicsUtils.clamp (reactance raw) MIN_REACTANCE MAX_REACTANCE |}.

(** The memoisation key: length, frequency and feed position rounded to 3
    decimals, wire diameter to 1 decimal (kept as the scaled integers). *)
Definition CacheKey : Type := (Z * Z * Z * Z)%type.

Definition cacheKey (length frequency feedPosition wireDiameter : Q) : CacheKey :=
  (Math_round (length * 1000), Math_round (frequency * 1000),
   Math_round (feedPosition * 1000), Math_round (wireDiameter * 10)).

Definition CacheKey_eqb (a b : CacheKey) : bool :=
  let '(a1, a2, a3, a4) := a in
  let '(b1, b2, b3, b4) := b in
  ((a1 =? b1) && (a2 =? b2) && (a3 =? b3) && (a4 =? b4))%Z.

(** The cache, newest entry first. *)
Definition Cache : Type := list (CacheKey * Impedance).

Fixpoint cache_get (cache : Cache) (key : CacheKey) : option Impedance :=
  match cache with
  | [] => None
  | (k', z) :: rest => if CacheKey_eqb k' key then Some z else cache_get rest key
  end.

(** Modelled from the spec: [calculateImpedance] with step 7, the
    memoisation; the cache is threaded explicitly. *)
Definition calculateImpedance (cache : Cache)
           (length frequency feedPosition wireDiameter : Q) : Impedance * Cache :=
  let key := cacheKey length frequency feedPosition wireDiameter in
  match cache_get cache key with
  | Some z => (z, cache)
  | None =>
      let z := computeImpedance length frequency feedPosition wireDiameter in
      (z, (key, z) :: cache)
  end.

(** The caches a session can be in: empty at start, then whatever the
    calls so far have left. *)
Inductive reachable : Cache -> Prop :=
| reachable_empty : reachable []
| reachable_call : forall cache length frequency feedPosition wireDiameter,
    reachable cache ->
    reachable (snd (calculateImpedance cache length frequency feedPosition wireDiameter)).

End Calculator.

(** The bounds of [PHYSICS_LIMITS] on an impedance. *)
Definition withinLimits (z : Impedance) : Prop :=
  (MIN_RESISTANCE <= resistance z <= MAX_RESISTANCE)
  /\ (MIN_REACTANCE <= reactance z <= MAX_REACTANCE).

End ImpedanceCalculator.

(* ================================================================== *)
(** * The components: shared data                                     *)
(* ================================================================== *)

(** The [AntennaData] interface of the components.  [elements] is an integer
    (the form schema declares it with [.int()]). *)
Module AntennaData.
Record t : Type := mk {
  type : string;
  frequency : Q;
  elements : Z;
  elementLength : Q;
  elementSpacing : Q;
  feedPoint : Q;
  material : string;
  wireDiameter : Q;
  balunRatio : string
}.
End AntennaData.

(** An entry of [MATCHING_NETWORKS] in [constants.ts]. *)
Record MatchingNetwork : Type := mkMatchingNetwork {
  ratio : Z;
  networkName : string;
  networkType : string
}.

(** [MATCHING_NETWORKS] of [constants.ts], and the lookup [MATCHING_NETWORKS[key]]. *)
Module MATCHING_NETWORKS.

Definition entries : list (string * MatchingNetwork) :=
  [ ("use1to1Balun", {| ratio := 1; networkName := "1:1 Balun"; networkType := "balun" |});
    ("use4to1Balun", {| ratio := 4; networkName := "4:1 Balun"; networkType := "balun" |});
    ("use9to1UnUn", {| ratio := 9; networkName := "9:1 UnUn"; networkType := "unun" |});
    ("use49to1UnUn", {| ratio := 49; networkName := "49:1 UnUn"; networkType := "unun" |})
  ]%string.

Fixpoint lookup (table : list (string * MatchingNetwork)) (key : string)
  : option MatchingNetwork :=
  match table with
  | [] => None
  | (k, v) :: rest => if (k =? key)%string then Some v else lookup rest key
  end.

Definition get (key : string) : option MatchingNetwork := lookup entries key.

End MATCHING_NETWORKS.

(* ================================================================== *)
(** * [src/components/antenna-performance.tsx]                        *)
(* ================================================================== *)

(** The four counts [calculateNodesAndAntinodes] of the performance panel
    returns. *)
Record NodeCounts : Type := mkNodeCounts {
  currentNodes : Z;
  voltageNodes : Z;
  currentAntinodes : Z;
  voltageAntinodes : Z
}.

Module AntennaPerformance.
Import JS.

(** [antennaModel] is an optional prop: [None] is the missing model. *)
Definition calculateNodesAndAntinodes (antennaModel : option AntennaModel.t)
           (antennaData : AntennaData.t) : NodeCounts :=
  match antennaModel with
  | None =>
      let elementLength := AntennaData.elementLength antennaData in
      {| currentNodes := Z.max 2 (Math_floor (elementLength * 2));
         voltageNodes := Z.max 1 (Math_floor (elementLength * 2) + 1);
         currentAntinodes := Z.max 1 (Math_floor (elementLength * 2) - 1);
         voltageAntinodes := Z.max 2 (Math_floor (elementLength * 2)) |}
  | Some antennaModel =>
      let k := AntennaModel.waveNumber antennaModel in
      let length := AntennaModel.length antennaModel in
      let halfLength := length / 2 in
      let wavelength := 2 * Math_PI / k in
      let electricalLength := length / wavelength in
      let currentNodes : list Q := [] in
      let currentNodes := push (push currentNodes (- halfLength)) halfLength in
      let maxNodes := Math_ceil (electricalLength * 4) in
      let edgeBuffer := Math_min 0.1 (wavelength * 0.05) in
      let currentNodes :=
        for_range 0 (Z.to_nat maxNodes) (fun n currentNodes =>
          let nodePosition := ((num n + 0.5) * Math_PI) / k in
          if Qltb nodePosition (halfLength - edgeBuffer)
          then push (push currentNodes nodePosition) (- nodePosition)
          else currentNodes) currentNodes in
      let currentAntinodes : list Q := [0] in
      let maxAntinodes := Math_ceil (electricalLength * 4) in
      let currentAntinodes :=
        for_range 1 (Z.to_nat maxAntinodes) (fun n currentAntinodes =>
          let antinodePosition := (num n * Math_PI) / k in
          if Qltb antinodePosition (halfLength - edgeBuffer)
          then push (push currentAntinodes antinodePosition) (- antinodePosition)
          else currentAntinodes) currentAntinodes in
      let voltageNodes : list Q := [0] in
      let voltageNodes :=
        for_range 1 (Z.to_nat maxNodes) (fun n voltageNodes =>
          let nodePosition := (num n * Math_PI) / k in
          if Qltb nodePosition (halfLength - edgeBuffer)
          then push (push voltageNodes nodePosition) (- nodePosition)
          else voltageNodes) voltageNodes in
      let voltageAntinodes : list Q := [] in
      let voltageAntinodes := push (push voltageAntinodes (- halfLength)) halfLength in
      let centerBuffer := Math_max 0.1 (wavelength * 0.05) in
      let voltageAntinodes :=
        for_range 0 (Z.to_nat maxAntinodes) (fun n voltageAntinodes =>
          let antinodePosition := ((num n + 0.5) * Math_PI) / k in
          if Qltb antinodePosition (halfLength - edgeBuffer)
             && Qltb centerBuffer antinodePosition
          then push (push voltageAntinodes antinodePosition) (- antinodePosition)
          else voltageAntinodes) voltageAntinodes in
      {| currentNodes := Z.of_nat (List.length (spread_Set currentNodes));
         voltageNodes := Z.of_nat (List.length (spread_Set voltageNodes));
         currentAntinodes := Z.of_nat (List.length (spread_Set currentAntinodes));
         voltageAntinodes := Z.of_nat (List.length (spread_Set voltageAntinodes)) |}
  end.

(** [finalSWR]: the [swr] prop when it is neither [undefined] nor [null],
    otherwise the simplified fallback model. *)
Definition finalSWR (swr : option Q) (antennaData : AntennaData.t) : Q :=
  match swr with
  | Some swr => swr
  | None =>
      let type := AntennaData.type antennaData in
      let optimalLength :=
        if (type =? "dipole")%string then 0.5
        else if (type =? "yagi")%string then 0.5
        else if (type =? "patch")%string then 0.49
        else if (type =? "logperiodic")%string then 0.45
        else if (type =? "helical")%string then 0.25
        else 0.5 in
      let lengthRatio := AntennaData.elementLength antennaData / optimalLength in
      let deviation := Math_abs (1 - lengthRatio) in
      let swrValue := 1 + deviation * 5 in
      let swrValue :=
        if Qeq_bool (AntennaData.feedPoint antennaData) 50
           && ((type =? "dipole")%string || (type =? "yagi")%string)
        then swrValue * 0.9
        else swrValue in
      Math_min 10 (Math_max 1 swrValue)
  end.

(** [Math.min(...gains)] and [Math.max(...gains)] of a non-empty array. *)
Definition min_of (first : Q) (rest : list Q) : Q := fold_left Math_min rest first.
Definition max_of (first : Q) (rest : list Q) : Q := fold_left Math_max rest first.

(** [finalRadarDomain], from the gains [radiationData.map(d => d.gain)]. *)
Definition finalRadarDomain (gains : list Q) : Z * Z :=
  let minPlottingGain := match gains with [] => 0 | g :: rest => min_of g rest end in
  let maxPlottingGain := match gains with [] => 0 | g :: rest => max_of g rest end in
  let radarChartDomainLowerBound :=
    Math_floor (minPlottingGain
                - number_or (Some (Math_abs minPlottingGain * 0.1)) 1) in
  let radarChartDomainUpperBound :=
    Math_ceil (maxPlottingGain
               + number_or (Some (Math_abs maxPlottingGain * 0.1)) 1) in
  (radarChartDomainLowerBound,
   Z.max (radarChartDomainLowerBound + 2) radarChartDomainUpperBound).

End AntennaPerformance.

(* ================================================================== *)
(** * The page component ([src/unnamed/part_000])                     *)
(* ================================================================== *)

(** The values the form reports to its watcher: every field may be
    [undefined]. *)
Record FormValues : Type := mkFormValues {
  antennaType : option string;
  formFrequency : option Q;
  formElements : option Z;
  formElementLength : option Q;
  formElementSpacing : option Q;
  formFeedPoint : option Q;
  formMaterial : option string;
  formWireDiameter : option Q;
  formBalunRatio : option string
}.

(** What the page writes into the antenna model when the data change. *)
Record ModelSettings : Type := mkModelSettings {
  modelLength : Q;
  modelFrequency : Q;
  modelFeedPosition : Q;
  modelWireDiameter : Q;
  modelMatchingNetwork : option string
}.

Module Page.
Import JS.

Definition getMatchingNetwork (balunRatio : string) : option string :=
  if (balunRatio =? "1:1")%string then Some "use1to1Balun"%string
  else if (balunRatio =? "4:1")%string then Some "use4to1Balun"%string
  else if (balunRatio =? "9:1")%string then Some "use9to1UnUn"%string
  else if (balunRatio =? "49:1")%string then Some "use49to1UnUn"%string
  else None.

(** The effect that copies [antennaData] into the model. *)
Definition updateModel (antennaData : AntennaData.t) : ModelSettings :=
  {| modelLength := AntennaData.elementLength antennaData;
     modelFrequency := AntennaData.frequency antennaData;
     modelFeedPosition := AntennaData.feedPoint antennaData / 100;
     modelWireDiameter := AntennaData.wireDiameter antennaData;
     modelMatchingNetwork := getMatchingNetwork (AntennaData.balunRatio antennaData) |}.

(** The callback of [form.watch]: the new [antennaData]. *)
Definition watchValues (values : FormValues) : AntennaData.t :=
  {| AntennaData.type := string_or (antennaType values) "dipole";
     AntennaData.frequency := number_or (formFrequency values) 14.2;
     AntennaData.elements := integer_or (formElements values) 1;
     AntennaData.elementLength := number_or (formElementLength values) 10.6;
     AntennaData.elementSpacing := number_or (formElementSpacing values) 0.25;
     AntennaData.feedPoint := number_or (formFeedPoint values) 50;
     AntennaData.material := string_or (formMaterial values) "copper";
     AntennaData.wireDiameter := number_or (formWireDiameter values) 2.0;
     AntennaData.balunRatio := string_or (formBalunRatio values) "None" |}.

(** The updater passed to [setAnimationTime] by the animation interval
    ([%] is the remainder with the sign of the dividend), and the value
    [resetAnimation] of the visualization component sets.  The animation time
    starts at 0 and only these two change it ("updates by whole degrees"), so
    it is an integer. *)
Definition animationStep (prev : Z) : Z :=
  let increment := 1%Z in
  Z.rem (prev + increment) 360.

Definition resetAnimation : Z := 0%Z.

End Page.

(** The earlier page component in the same file, which derives its figures
    without the antenna model. *)
Module EarlierPage.
Import JS.

Section WithLog10.

(** [Math.log10], which is not a rational function. *)
Variable Math_log10 : Q -> Q.

Definition calculateFeedImpedance (data : AntennaData.t) : Z :=
  let baseZ := 73 in
  let baseZ :=
    if (AntennaData.type data =? "dipole")%string then
      let feedRatio := AntennaData.feedPoint data / 100 in
      if Qeq_bool feedRatio 0.5 then 73
      else
        let offset := Math_abs (feedRatio - 0.5) * 2 in
        73 + offset * 2000
    else if (AntennaData.type data =? "yagi")%string then
      50 + 10 * Math_log10 (inject_Z (AntennaData.elements data))
    else if (AntennaData.type data =? "patch")%string then
      50 + 20 * AntennaData.elementLength data
    else baseZ in
  Math_round baseZ.

End WithLog10.

(** [calculateResonantFrequency(antennaData)]; [wavelength] is the page's
    derived value [299.792458 / antennaData.frequency]. *)
Definition wavelength (antennaData : AntennaData.t) : Q :=
  299.792458 / AntennaData.frequency antennaData.

Definition calculateResonantFrequency (antennaData : AntennaData.t) : Q :=
  let velocityFactor := 0.95 in
  let resonantLength :=
    if (AntennaData.type antennaData =? "dipole")%string then 0.5
    else AntennaData.elementLength antennaData in
  (299.792458 * velocityFactor) / (resonantLength * wavelength antennaData).

End EarlierPage.

(* ================================================================== *)
(** * The component of [src/components/antenna-visualization.tsx]     *)
(* ================================================================== *)

(** A Yagi element as [createYagiAntenna] adds it to the scene: the height of
    its cylinder and the x coordinate it is placed at. *)
Record YagiElement : Type := mkYagiElement {
  cylinderLength : Q;
  xPos : Q
}.

Module AntennaVisualization.
Import JS.

(** The array [positions] of [createCurrentVoltageCurves]. *)
Definition curvePositions (wireLength : Q) : list Q :=
  let numPoints := 50%nat in
  let positions : list Q := [] in
  for_range 0 numPoints (fun i positions =>
    let x := (num i / (num numPoints - 1)) * wireLength - wireLength / 2 in
    push positions x) positions.

(** The x coordinate of the feed point marker of
    [addLearnTennaVisualization]. *)
Definition feedMarker (model : AntennaModel.t) : Q :=
  (AntennaModel.feedPosition model - 0.5) * AntennaModel.length model.

(** [boomLength] of [createYagiAntenna]. *)
Definition yagiBoomLength (antennaData : AntennaData.t) : Q :=
  (inject_Z (AntennaData.elements antennaData) - 1)
  * AntennaData.elementSpacing antennaData + 0.5.

(** The elements [createYagiAntenna] adds to the scene, in order. *)
Definition yagiElements (antennaData : AntennaData.t) : list YagiElement :=
  let boomLength := yagiBoomLength antennaData in
  for_loop 0 (Z.to_nat (AntennaData.elements antennaData)) (fun i scene =>
    let elementLength :=
      if (i =? 0)%nat then AntennaData.elementLength antennaData * 1.05
      else if (i =? 1)%nat then AntennaData.elementLength antennaData
      else AntennaData.elementLength antennaData * (0.95 - (num i - 2) * 0.02) in
    let xPos := - boomLength / 2 + num i * AntennaData.elementSpacing antennaData in
    scene ++ [ {| cylinderLength := elementLength; xPos := xPos |} ]) [].

End AntennaVisualization.

(* ================================================================== *)
(** * Vocabulary of the statements                                    *)
(* ================================================================== *)

(** [contains x l]: the position [x] occurs in the list [l] (as a number,
    whatever fraction represents it). *)
Definition contains (x : Q) (l : list Q) : Prop := InA Qeq x l.

(** [strictly_increasing l]: every element is smaller than every later one,
    so [l] is in ascending order and holds no position twice. *)
Definition strictly_increasing (l : list Q) : Prop := StronglySorted Qlt l.

(** Two lists hold the same numbers at the same places. *)
Definition same_positions (l1 l2 : list Q) : Prop := eqlistA Qeq l1 l2.

(** The decision procedure for [same_positions]. *)
Fixpoint same_positionsb (l1 l2 : list Q) : bool :=
  match l1, l2 with
  | [], [] => true
  | x :: t1, y :: t2 => Qeq_bool x y && same_positionsb t1 t2
  | _, _ => false
  end.

(** The two families of internal positions the loops enumerate:
    (n + 0.5) * PI / k and n * PI / k. *)
Definition odd_position (k : Q) (n : nat) : Q := ((JS.num n + 0.5) * JS.Math_PI) / k.
Definition even_position (k : Q) (n : nat) : Q := (JS.num n * JS.Math_PI) / k.

(** The loop bound and the two buffers the class in
    [antenna-visualization.tsx] derives from [length] and [k]. *)
Definition viz_bound (length k : Q) : nat :=
  Z.to_nat (JS.Math_ceil (length / (2 * JS.Math_PI / k) * 4)).

Definition viz_edgeBuffer (k : Q) : Q := JS.Math_min 0.1 (2 * JS.Math_PI / k * 0.05).

Definition viz_centerBuffer (k : Q) : Q := JS.Math_max 0.1 (2 * JS.Math_PI / k * 0.05).

(** A wire of 7 m at wave number PI (wavelength 2 m), fed at the centre:
    half-waves are 1 m apart, the edge buffer keeps 3.5 out of the loops. *)
Definition seven : AntennaModel.t :=
  AntennaModel.mk 7 149.9 0.5 JS.Math_PI 3.5 2 (mkImpedance 120 40).

(** The text ends in "th". *)
Fixpoint ends_in_th (s : string) : bool :=
  match s with
  | EmptyString => false
  | String c rest => (s =? "th")%string || ends_in_th rest
  end.

(** The i-th sample position of [createCurrentVoltageCurves]. *)
Definition curvePoint (wireLength : Q) (i : nat) : Q :=
  (JS.num i / (JS.num 50 - 1)) * wireLength - wireLength / 2.

(** The element [createYagiAntenna] adds in round [i] of its loop. *)
Definition yagiElement (antennaData : AntennaData.t) (i : nat) : YagiElement :=
  {| cylinderLength :=
       if (i =? 0)%nat then AntennaData.elementLength antennaData * 1.05
       else if (i =? 1)%nat then AntennaData.elementLength antennaData
       else AntennaData.elementLength antennaData * (0.95 - (JS.num i - 2) * 0.02);
     xPos := - AntennaVisualization.yagiBoomLength antennaData / 2
             + JS.num i * AntennaData.elementSpacing antennaData |}.

(** Along the boom: the later element is shorter and not placed before the
    earlier one. *)
Definition shorter_and_further (a b : YagiElement) : Prop :=
  cylinderLength b < cylinderLength a /\ xPos a <= xPos b.

(** The contribution of one loop round that pushes [pos n] and [- pos n]
    when [cond n] holds. *)
Definition emit (cond : nat -> bool) (pos : nat -> Q) (n : nat) : list Q :=
  if cond n then [pos n; - pos n] else [].

(* ================================================================== *)
(** * The embedding at work                                           *)
(* ================================================================== *)

Section Examples.
Import JS.

Example seven_current_nodes :
  same_positionsb
    (nodes (current (NodesCalculator.calculateNodesAndAntinodes seven)))
    [-3.5; -2.5; -1.5; -0.5; 0.5; 1.5; 2.5; 3.5] = true.
Proof. vm_compute. reflexivity. Qed.

Example seven_current_antinodes :
  same_positionsb
    (antinodes (current (NodesCalculator.calculateNodesAndAntinodes seven)))
    [-3; -2; -1; 0; 1; 2; 3] = true.
Proof. vm_compute. reflexivity. Qed.

Example seven_voltage_antinodes :
  same_positionsb
    (antinodes (voltage (NodesCalculator.calculateNodesAndAntinodes seven)))
    [-3.5; -2.5; -1.5; -0.5; 0.5; 1.5; 2.5; 3.5] = true.
Proof. vm_compute. reflexivity. Qed.

Example seven_harmonic :
  harmonic (NodesCalculator.calculateNodesAndAntinodes seven) = 7%Z.
Proof. reflexivity. Qed.

Example seven_same_in_visualization :
  Visualization.calculateNodesAndAntinodes seven
  = NodesCalculator.calculateNodesAndAntinodes seven.
Proof. vm_compute. reflexivity. Qed.

(** The same wire fed at its left end: the feed replaces the centre in the
    current antinodes, and no voltage node is placed at the centre. *)
Example seven_end_fed :
  let r := NodesCalculator.calculateNodesAndAntinodes
             (AntennaModel.mk 7 149.9 0 Math_PI 3.5 2 (mkImpedance 2500 0)) in
  same_positionsb (antinodes (current r)) [-3.5; -3; -2; -1; 1; 2; 3] = true
  /\ same_positionsb (nodes (voltage r)) [-3; -2; -1; 1; 2; 3] = true.
Proof. vm_compute. split; reflexivity. Qed.

(** [Math.round] takes a tie upwards: 0.75 wavelengths is the 2nd harmonic. *)
Example harmonic_tie : NodesCalculator._getHarmonicNumber 0.75 = 2%Z.
Proof. reflexivity. Qed.

Example harmonic_short : NodesCalculator._getHarmonicNumber 0.1 = 1%Z.
Proof. reflexivity. Qed.

(** Reactance 40 against resistance 120: 40 >= max(15, 24), not resonant,
    too long by 40 / 377 * 2 * 0.1 metres. *)
Example seven_guidance :
  NodesCalculator.getResonanceGuidance seven
  = {| status := "Not Resonant";
       guidance := TooLong (40 / 377 * 2 * 0.1) (7 - 40 / 377 * 2 * 0.1);
       color := "#ff6600";
       lengthAdjustment := Some (40 / 377 * 2 * 0.1);
       guidanceReactance := Some 40 |}.
Proof. reflexivity. Qed.

End Examples.

(* ================================================================== *)
(** * The runtime primitives                                          *)
(* ================================================================== *)

Section Runtime.
Import JS.

Lemma Qltb_lt (a b : Q) : Qltb a b = true <-> a < b.
Proof.
  unfold Qltb. rewrite negb_true_iff, <- not_true_iff_false, Qle_bool_iff.
  split; [apply Qnot_le_lt | apply Qlt_not_le].
Qed.

Lemma Qltb_ge (a b : Q) : Qltb a b = false <-> b <= a.
Proof.
  unfold Qltb. rewrite negb_false_iff. apply Qle_bool_iff.
Qed.

Lemma Qeq_bool_neq_false (a b : Q) : ~ a == b -> Qeq_bool a b = false.
Proof.
  intros H. apply not_true_iff_false. rewrite Qeq_bool_iff. exact H.
Qed.

Lemma Qhalf (x : Q) : x / 2 == x * (1 # 2).
Proof. reflexivity. Qed.

Lemma Math_PI_pos : 0 < Math_PI.
Proof. reflexivity. Qed.

Lemma num_nonneg (n : nat) : 0 <= num n.
Proof.
  unfold num. change 0 with (inject_Z 0). rewrite <- Zle_Qle. lia.
Qed.

Lemma num_lt (a b : nat) : num a < num b <-> (a < b)%nat.
Proof.
  unfold num. rewrite <- Zlt_Qlt. lia.
Qed.

Lemma num_le (a b : nat) : num a <= num b <-> (a <= b)%nat.
Proof.
  unfold num. rewrite <- Zle_Qle. lia.
Qed.

(** ** Sorting *)

Lemma In_sort_insert (x y : Q) (l : list Q) :
  In y (sort_insert x l) <-> y = x \/ In y l.
Proof.
  induction l as [|z l IH]; simpl.
  - intuition.
  - destruct (Qle_bool x z); simpl; [intuition | rewrite IH; intuition].
Qed.

Lemma In_sort_asc (y : Q) (l : list Q) : In y (sort_asc l) <-> In y l.
Proof.
  induction l as [|x l IH]; simpl; [reflexivity|].
  rewrite In_sort_insert, IH. intuition.
Qed.

Lemma contains_sort_insert (x y : Q) (l : list Q) :
  contains y (sort_insert x l) <-> y == x \/ contains y l.
Proof.
  unfold contains. induction l as [|z l IH]; simpl.
  - rewrite InA_cons, InA_nil. reflexivity.
  - destruct (Qle_bool x z).
    + rewrite InA_cons. reflexivity.
    + rewrite !InA_cons, IH. intuition.
Qed.

Lemma contains_sort_asc (y : Q) (l : list Q) :
  contains y (sort_asc l) <-> contains y l.
Proof.
  unfold contains. induction l as [|x l IH]; simpl; [reflexivity|].
  rewrite InA_cons, <- IH. apply contains_sort_insert.
Qed.

Lemma sort_insert_sorted (x : Q) (l : list Q) :
  StronglySorted Qle l -> StronglySorted Qle (sort_insert x l).
Proof.
  induction 1 as [|z l Hs IH Hz]; simpl.
  - constructor; [constructor | constructor].
  - destruct (Qle_bool x z) eqn:E.
    + apply Qle_bool_iff in E.
      constructor; [constructor; assumption|].
      constructor; [assumption|].
      eapply Forall_impl; [|exact Hz].
      intros w Hw. eapply Qle_trans; eassumption.
    + assert (Hzx : z <= x).
      { apply Qlt_le_weak, Qnot_le_lt. rewrite <- Qle_bool_iff. congruence. }
      constructor; [exact IH|].
      apply Forall_forall. intros w Hw.
      apply In_sort_insert in Hw. destruct Hw as [->|Hw]; [exact Hzx|].
      rewrite Forall_forall in Hz. auto.
Qed.

Lemma sort_asc_sorted (l : list Q) : StronglySorted Qle (sort_asc l).
Proof.
  induction l; simpl; [constructor | apply sort_insert_sorted; assumption].
Qed.

Lemma sort_insert_NoDupA (x : Q) (l : list Q) :
  ~ contains x l -> NoDupA Qeq l -> NoDupA Qeq (sort_insert x l).
Proof.
  unfold contains. intros Hx Hl. induction Hl as [|z l Hz Hl IH]; simpl.
  - constructor; [assumption | constructor].
  - destruct (Qle_bool x z).
    + constructor; [assumption | constructor; assumption].
    + constructor.
      * intros H. apply contains_sort_insert in H. destruct H as [H|H].
        -- apply Hx. left. symmetry. exact H.
        -- apply Hz. exact H.
      * apply IH. intros H. apply Hx. right. exact H.
Qed.

Lemma sort_asc_NoDupA (l : list Q) : NoDupA Qeq l -> NoDupA Qeq (sort_asc l).
Proof.
  induction 1 as [|x l Hx Hl IH]; simpl; [constructor|].
  apply sort_insert_NoDupA; [|exact IH].
  intros H. apply Hx. apply (proj1 (contains_sort_asc x l)). exact H.
Qed.

Lemma sorted_NoDupA_strict (l : list Q) :
  StronglySorted Qle l -> NoDupA Qeq l -> strictly_increasing l.
Proof.
  unfold strictly_increasing.
  induction 1 as [|x l Hs IH Hx]; intros Hn; [constructor|].
  inversion Hn as [|? ? Hnx Hnl]; subst.
  constructor; [auto|].
  rewrite Forall_forall in *. intros y Hy.
  destruct (Qle_lt_or_eq _ _ (Hx y Hy)) as [Hlt|Heq]; [exact Hlt|].
  exfalso. apply Hnx. apply InA_alt. exists y. split; assumption.
Qed.

(** ** [new Set] *)

Lemma contains_filter_neq (x y : Q) (l : list Q) :
  contains y (filter (fun z => negb (Qeq_bool x z)) l)
  <-> contains y l /\ ~ x == y.
Proof.
  unfold contains. rewrite !InA_alt. split.
  - intros (z & Hyz & Hz). apply filter_In in Hz. destruct Hz as [Hz Hb].
    split; [exists z; auto|].
    intros Hxy. rewrite negb_true_iff in Hb.
    apply Qeq_bool_neq in Hb. apply Hb. rewrite Hxy. exact Hyz.
  - intros [(z & Hyz & Hz) Hxy]. exists z. split; [exact Hyz|].
    apply filter_In. split; [exact Hz|].
    rewrite negb_true_iff. apply not_true_iff_false. intros Hb.
    apply Qeq_bool_iff in Hb. apply Hxy. rewrite Hyz. exact Hb.
Qed.

Lemma filter_NoDupA (f : Q -> bool) (l : list Q) :
  NoDupA Qeq l -> NoDupA Qeq (filter f l).
Proof.
  induction 1 as [|x l Hx Hl IH]; simpl; [constructor|].
  destruct (f x); [|exact IH].
  constructor; [|exact IH].
  intros H. apply Hx. rewrite InA_alt in *.
  destruct H as (z & Hz & Hin). exists z. split; [exact Hz|].
  apply filter_In in Hin. tauto.
Qed.

Lemma contains_spread_Set (y : Q) (l : list Q) :
  contains y (spread_Set l) <-> contains y l.
Proof.
  induction l as [|x l IH]; simpl; [reflexivity|].
  unfold contains in *. rewrite !InA_cons, <- IH.
  fold (contains y (filter (fun z => negb (Qeq_bool x z)) (spread_Set l))).
  rewrite contains_filter_neq. unfold contains.
  destruct (Qeq_dec y x) as [E|E]; [tauto|].
  assert (~ x == y) by (intros H; apply E; symmetry; exact H). tauto.
Qed.

Lemma spread_Set_NoDupA (l : list Q) : NoDupA Qeq (spread_Set l).
Proof.
  induction l as [|x l IH]; simpl; [constructor|].
  constructor; [|apply filter_NoDupA; exact IH].
  intros H.
  fold (contains x (filter (fun z => negb (Qeq_bool x z)) (spread_Set l))) in H.
  apply contains_filter_neq in H. destruct H as [_ H]. apply H. reflexivity.
Qed.

(** The tail of every list computation: deduplicate, then sort. *)
Lemma sorted_set_strict (arr : list Q) :
  strictly_increasing (sort_asc (spread_Set arr)).
Proof.
  apply sorted_NoDupA_strict;
    [apply sort_asc_sorted | apply sort_asc_NoDupA, spread_Set_NoDupA].
Qed.

Lemma sorted_set_contains (x : Q) (arr : list Q) :
  contains x (sort_asc (spread_Set arr)) <-> contains x arr.
Proof.
  rewrite contains_sort_asc. apply contains_spread_Set.
Qed.

(** ** Loops *)

Lemma fold_emit (cond : nat -> bool) (pos : nat -> Q) (ns : list nat) (arr : list Q) :
  fold_left (fun acc n => if cond n then push (push acc (pos n)) (- pos n) else acc)
            ns arr
  = arr ++ flat_map (emit cond pos) ns.
Proof.
  revert arr. induction ns as [|n ns IH]; intros arr; simpl.
  - now rewrite app_nil_r.
  - rewrite IH. unfold emit, push. destruct (cond n); simpl.
    + now rewrite <- !app_assoc.
    + reflexivity.
Qed.

Lemma for_range_emit (start bound : nat) (cond : nat -> bool) (pos : nat -> Q)
      (arr : list Q) :
  for_range start bound
    (fun n acc => if cond n then push (push acc (pos n)) (- pos n) else acc) arr
  = arr ++ flat_map (emit cond pos) (seq start (bound - start)).
Proof.
  unfold for_range. apply fold_emit.
Qed.

Lemma contains_app_l (x : Q) (l1 l2 : list Q) :
  contains x l1 -> contains x (l1 ++ l2).
Proof.
  unfold contains. intros H. apply InA_app_iff. left. exact H.
Qed.

End Runtime.

(* ================================================================== *)
(** * The list computations, loop by loop                             *)
(* ================================================================== *)

Section Unfoldings.
Import JS NODES_CONFIG.

(** The array each function of [nodescalculator.ts] hands to
    [new Set] and [sort]. *)

Lemma lib_currentNodes_eq (length k feedPosition : Q) :
  NodesCalculator._calculateCurrentNodes length k feedPosition
  = sort_asc (spread_Set
      ([- (length / 2); length / 2]
       ++ flat_map (emit (fun n => Qltb (odd_position k n) (length / 2 - EDGE_BUFFER))
                         (odd_position k))
                   (seq 0 (MAX_HARMONICS - 0)))).
Proof.
  unfold NodesCalculator._calculateCurrentNodes. cbv zeta.
  rewrite (for_range_emit 0 MAX_HARMONICS
             (fun n => Qltb (odd_position k n) (length / 2 - EDGE_BUFFER))
             (odd_position k)).
  destruct (Qeq_bool feedPosition 0 || Qeq_bool feedPosition 1); reflexivity.
Qed.

Lemma lib_currentAntinodes_eq (length k feedPosition : Q) :
  NodesCalculator._calculateCurrentAntinodes length k feedPosition
  = sort_asc (spread_Set
      ([if Qeq_bool feedPosition 0.5 then 0
        else if Qeq_bool feedPosition 0 || Qeq_bool feedPosition 1
             then (if Qeq_bool feedPosition 0 then - (length / 2) else length / 2)
             else (feedPosition - 0.5) * length]
       ++ flat_map (emit (fun n => Qltb (even_position k n) (length / 2 - EDGE_BUFFER))
                         (even_position k))
                   (seq 1 (MAX_HARMONICS - 1)))).
Proof.
  unfold NodesCalculator._calculateCurrentAntinodes. cbv zeta.
  rewrite (for_range_emit 1 MAX_HARMONICS
             (fun n => Qltb (even_position k n) (length / 2 - EDGE_BUFFER))
             (even_position k)).
  destruct (Qeq_bool feedPosition 0.5); [reflexivity|].
  destruct (Qeq_bool feedPosition 0 || Qeq_bool feedPosition 1); reflexivity.
Qed.

Lemma lib_voltageNodes_eq (length k feedPosition : Q) :
  NodesCalculator._calculateVoltageNodes length k feedPosition
  = sort_asc (spread_Set
      ((if Qeq_bool feedPosition 0.5 then [0] else [])
       ++ flat_map (emit (fun n => Qltb (even_position k n) (length / 2 - EDGE_BUFFER))
                         (even_position k))
                   (seq 1 (MAX_HARMONICS - 1)))).
Proof.
  unfold NodesCalculator._calculateVoltageNodes. cbv zeta.
  rewrite (for_range_emit 1 MAX_HARMONICS
             (fun n => Qltb (even_position k n) (length / 2 - EDGE_BUFFER))
             (even_position k)).
  destruct (Qeq_bool feedPosition 0.5); reflexivity.
Qed.

Lemma lib_voltageAntinodes_eq (length k feedPosition : Q) :
  NodesCalculator._calculateVoltageAntinodes length k feedPosition
  = sort_asc (spread_Set
      ([- (length / 2); length / 2]
       ++ flat_map (emit (fun n => Qltb (odd_position k n) (length / 2 - EDGE_BUFFER)
                                   && Qltb EDGE_BUFFER (odd_position k n))
                         (odd_position k))
                   (seq 0 (MAX_HARMONICS - 0)))).
Proof.
  unfold NodesCalculator._calculateVoltageAntinodes. cbv zeta.
  rewrite (for_range_emit 0 MAX_HARMONICS
             (fun n => Qltb (odd_position k n) (length / 2 - EDGE_BUFFER)
                       && Qltb EDGE_BUFFER (odd_position k n))
             (odd_position k)).
  reflexivity.
Qed.

(** The same for the class in [antenna-visualization.tsx]. *)

Lemma viz_currentNodes_eq (length k : Q) :
  Visualization._calculateCurrentNodes length k
  = sort_asc (spread_Set
      ([- (length / 2); length / 2]
       ++ flat_map (emit (fun n => Qltb (odd_position k n) (length / 2 - viz_edgeBuffer k))
                         (odd_position k))
                   (seq 0 (viz_bound length k - 0)))).
Proof.
  unfold Visualization._calculateCurrentNodes. cbv zeta.
  rewrite (for_range_emit 0 (viz_bound length k)
             (fun n => Qltb (odd_position k n) (length / 2 - viz_edgeBuffer k))
             (odd_position k)).
  reflexivity.
Qed.

Lemma viz_currentAntinodes_eq (length k : Q) :
  Visualization._calculateCurrentAntinodes length k
  = sort_asc (spread_Set
      ([0]
       ++ flat_map (emit (fun n => Qltb (even_position k n) (length / 2 - viz_edgeBuffer k))
                         (even_position k))
                   (seq 1 (viz_bound length k - 1)))).
Proof.
  unfold Visualization._calculateCurrentAntinodes. cbv zeta.
  rewrite (for_range_emit 1 (viz_bound length k)
             (fun n => Qltb (even_position k n) (length / 2 - viz_edgeBuffer k))
             (even_position k)).
  reflexivity.
Qed.

Lemma viz_voltageNodes_eq (length k : Q) :
  Visualization._calculateVoltageNodes length k
  = sort_asc (spread_Set
      ([0]
       ++ flat_map (emit (fun n => Qltb (even_position k n) (length / 2 - viz_edgeBuffer k))
                         (even_position k))
                   (seq 1 (viz_bound length k - 1)))).
Proof.
  unfold Visualization._calculateVoltageNodes. cbv zeta.
  rewrite (for_range_emit 1 (viz_bound length k)
             (fun n => Qltb (even_position k n) (length / 2 - viz_edgeBuffer k))
             (even_position k)).
  reflexivity.
Qed.

Lemma viz_voltageAntinodes_eq (length k : Q) :
  Visualization._calculateVoltageAntinodes length k
  = sort_asc (spread_Set
      ([- (length / 2); length / 2]
       ++ flat_map (emit (fun n => Qltb (odd_position k n) (length / 2 - viz_edgeBuffer k)
                                   && Qltb (viz_centerBuffer k) (odd_position k n))
                         (odd_position k))
                   (seq 0 (viz_bound length k - 0)))).
Proof.
  unfold Visualization._calculateVoltageAntinodes. cbv zeta.
  rewrite (for_range_emit 0 (viz_bound length k)
             (fun n => Qltb (odd_position k n) (length / 2 - viz_edgeBuffer k)
                       && Qltb (viz_centerBuffer k) (odd_position k n))
             (odd_position k)).
  reflexivity.
Qed.

End Unfoldings.

(* ================================================================== *)
(** * Node and antinode lists of [nodescalculator.ts]                 *)
(* ================================================================== *)

Section NodeLists.
Import JS NODES_CONFIG.

(** C1. For every model with positive length and positive wave number,
    [calculateNodesAndAntinodes] returns current nodes that contain both
    wire ends [-length/2] and [+length/2], voltage antinodes that contain
    both wire ends, and, when [feedPosition = 0.5], current antinodes that
    contain 0. *)
Theorem wire_ends_and_centre_present (model : AntennaModel.t) :
  0 < AntennaModel.length model ->
  0 < AntennaModel.waveNumber model ->
  let result := NodesCalculator.calculateNodesAndAntinodes model in
  let halfLength := AntennaModel.length model / 2 in
  (contains (- halfLength) (nodes (current result))
   /\ contains halfLength (nodes (current result)))
  /\ (contains (- halfLength) (antinodes (voltage result))
      /\ contains halfLength (antinodes (voltage result)))
  /\ (AntennaModel.feedPosition model == 0.5 ->
      contains 0 (antinodes (current result))).
Proof.
  intros _ _. cbv zeta. unfold NodesCalculator.calculateNodesAndAntinodes. simpl.
  rewrite lib_currentNodes_eq, lib_voltageAntinodes_eq, lib_currentAntinodes_eq.
  rewrite !sorted_set_contains.
  repeat split.
  - apply contains_app_l. left. reflexivity.
  - apply contains_app_l. right. left. reflexivity.
  - apply contains_app_l. left. reflexivity.
  - apply contains_app_l. right. left. reflexivity.
  - intros Hfeed. apply contains_app_l.
    apply Qeq_bool_iff in Hfeed. rewrite Hfeed. left. reflexivity.
Qed.

Lemma wire_ends_and_centre_present_witness :
  let model := AntennaModel.mk 10.6 14.2 0.5 0.2976 0.502 21.112 (mkImpedance 73.1 5) in
  let result := NodesCalculator.calculateNodesAndAntinodes model in
  (0 < AntennaModel.length model /\ 0 < AntennaModel.waveNumber model)
  /\ (contains (-5.3) (nodes (current result))
      /\ contains 5.3 (nodes (current result)))
  /\ (contains (-5.3) (antinodes (voltage result))
      /\ contains 5.3 (antinodes (voltage result)))
  /\ contains 0 (antinodes (current result)).
Proof.
  cbv zeta.
  destruct (wire_ends_and_centre_present
              (AntennaModel.mk 10.6 14.2 0.5 0.2976 0.502 21.112 (mkImpedance 73.1 5)))
    as ([H1 H2] & [H3 H4] & H5); [reflexivity | reflexivity |].
  cbv zeta in H1, H2, H3, H4, H5. unfold AntennaModel.length, AntennaModel.feedPosition in *.
  split; [split; reflexivity|].
  split; [split|split; [split|]].
  - eapply InA_eqA; [exact Q_Setoid | | exact H1]. reflexivity.
  - eapply InA_eqA; [exact Q_Setoid | | exact H2]. reflexivity.
  - eapply InA_eqA; [exact Q_Setoid | | exact H3]. reflexivity.
  - eapply InA_eqA; [exact Q_Setoid | | exact H4]. reflexivity.
  - apply H5. reflexivity.
Defined.

(** C7. For every model with positive length and positive wave number the
    current antinodes contain the position the feed determines: 0 when
    [feedPosition = 0.5]; [-length/2] when [feedPosition = 0] and
    [+length/2] when [feedPosition = 1]; [(feedPosition - 0.5) * length]
    for every other feed position strictly between 0 and 1. *)
Theorem current_antinodes_contain_feed (model : AntennaModel.t) :
  0 < AntennaModel.length model ->
  0 < AntennaModel.waveNumber model ->
  let length := AntennaModel.length model in
  let feedPosition := AntennaModel.feedPosition model in
  let currentAntinodes :=
    antinodes (current (NodesCalculator.calculateNodesAndAntinodes model)) in
  (feedPosition == 0.5 -> contains 0 currentAntinodes)
  /\ (feedPosition == 0 -> contains (- (length / 2)) currentAntinodes)
  /\ (feedPosition == 1 -> contains (length / 2) currentAntinodes)
  /\ (0 < feedPosition < 1 -> ~ feedPosition == 0.5 ->
      contains ((feedPosition - 0.5) * length) currentAntinodes).
Proof.
  intros _ _. cbv zeta. unfold NodesCalculator.calculateNodesAndAntinodes. simpl.
  rewrite lib_currentAntinodes_eq, !sorted_set_contains.
  set (feedPosition := AntennaModel.feedPosition model).
  repeat split.
  - intros Hfeed. apply contains_app_l.
    apply Qeq_bool_iff in Hfeed. rewrite Hfeed. left. reflexivity.
  - intros Hfeed. apply contains_app_l.
    assert (E1 : Qeq_bool feedPosition 0.5 = false).
    { apply Qeq_bool_neq_false. rewrite Hfeed. discriminate. }
    apply Qeq_bool_iff in Hfeed. rewrite E1, Hfeed. left. reflexivity.
  - intros Hfeed. apply contains_app_l.
    assert (E1 : Qeq_bool feedPosition 0.5 = false).
    { apply Qeq_bool_neq_false. rewrite Hfeed. discriminate. }
    assert (E2 : Qeq_bool feedPosition 0 = false).
    { apply Qeq_bool_neq_false. rewrite Hfeed. discriminate. }
    apply Qeq_bool_iff in Hfeed. rewrite E1, E2, Hfeed. left. reflexivity.
  - intros [Hlo Hhi] Hmid. apply contains_app_l.
    assert (E1 : Qeq_bool feedPosition 0.5 = false)
      by (apply Qeq_bool_neq_false; exact Hmid).
    assert (E2 : Qeq_bool feedPosition 0 = false).
    { apply Qeq_bool_neq_false. intros E. rewrite E in Hlo. discriminate. }
    assert (E3 : Qeq_bool feedPosition 1 = false).
    { apply Qeq_bool_neq_false. intros E. rewrite E in Hhi. discriminate. }
    rewrite E1, E2, E3. left. reflexivity.
Qed.

Lemma current_antinodes_contain_feed_witness :
  let model := AntennaModel.mk 10.6 14.2 0.25 0.2976 0.502 21.112 (mkImpedance 73.1 5) in
  (0 < AntennaModel.length model /\ 0 < AntennaModel.waveNumber model)
  /\ contains ((0.25 - 0.5) * 10.6)
              (antinodes (current (NodesCalculator.calculateNodesAndAntinodes model))).
Proof.
  cbv zeta. split; [split; reflexivity|].
  apply (current_antinodes_contain_feed
           (AntennaModel.mk 10.6 14.2 0.25 0.2976 0.502 21.112 (mkImpedance 73.1 5)));
    try reflexivity.
  - split; reflexivity.
  - discriminate.
Defined.

(** C8. For every model with positive length and positive wave number, each
    of the four lists [calculateNodesAndAntinodes] returns (current nodes,
    current antinodes, voltage nodes, voltage antinodes) is strictly
    increasing: ascending, with no position twice. *)
Theorem node_lists_strictly_increasing (model : AntennaModel.t) :
  0 < AntennaModel.length model ->
  0 < AntennaModel.waveNumber model ->
  let result := NodesCalculator.calculateNodesAndAntinodes model in
  strictly_increasing (nodes (current result))
  /\ strictly_increasing (antinodes (current result))
  /\ strictly_increasing (nodes (voltage result))
  /\ strictly_increasing (antinodes (voltage result)).
Proof.
  intros _ _. cbv zeta. unfold NodesCalculator.calculateNodesAndAntinodes. simpl.
  repeat split; apply sorted_set_strict.
Qed.

Lemma node_lists_strictly_increasing_witness :
  let model := AntennaModel.mk 40 14.2 0.25 0.2976 1.894 21.112 (mkImpedance 73.1 5) in
  let result := NodesCalculator.calculateNodesAndAntinodes model in
  strictly_increasing (nodes (current result))
  /\ strictly_increasing (antinodes (current result))
  /\ strictly_increasing (nodes (voltage result))
  /\ strictly_increasing (antinodes (voltage result)).
Proof.
  apply (node_lists_strictly_increasing
           (AntennaModel.mk 40 14.2 0.25 0.2976 1.894 21.112 (mkImpedance 73.1 5)));
    reflexivity.
Defined.

End NodeLists.

(* ================================================================== *)
(** * Harmonic number and resonance predicate                         *)
(* ================================================================== *)

Section Harmonic.
Import JS.

Lemma lib_harmonic_max (electricalLength : Q) :
  NodesCalculator._getHarmonicNumber electricalLength
  = Z.max 1 (Math_round (2 * electricalLength)).
Proof.
  unfold NodesCalculator._getHarmonicNumber, Math_round. cbv zeta.
  assert (E : Qfloor (electricalLength * 2 + (1 # 2))
              = Qfloor (2 * electricalLength + (1 # 2))).
  { apply Qfloor_comp. ring. }
  rewrite E. destruct (Z.leb_spec (Qfloor (2 * electricalLength + (1 # 2))) 0); lia.
Qed.

Lemma harmonic_same (electricalLength : Q) :
  Visualization._getHarmonicNumber electricalLength
  = NodesCalculator._getHarmonicNumber electricalLength.
Proof. reflexivity. Qed.

(** C4. For every model whose electrical length is above 0, the harmonic
    number that [calculateNodesAndAntinodes] returns, in either calculator,
    equals the larger of 1 and the electrical length doubled and rounded to
    the nearest integer. *)
Theorem harmonic_is_max_1_round (model : AntennaModel.t) :
  let electricalLength := AntennaModel.electricalLength model in
  0 < electricalLength ->
  harmonic (NodesCalculator.calculateNodesAndAntinodes model)
  = Z.max 1 (Math_round (2 * electricalLength))
  /\ harmonic (Visualization.calculateNodesAndAntinodes model)
     = Z.max 1 (Math_round (2 * electricalLength)).
Proof.
  cbv zeta. intros _.
  unfold NodesCalculator.calculateNodesAndAntinodes,
    Visualization.calculateNodesAndAntinodes. simpl.
  split; [|rewrite harmonic_same]; apply lib_harmonic_max.
Qed.

Lemma harmonic_is_max_1_round_witness :
  let model := AntennaModel.mk 26.6 14.2 0.5 0.2976 1.26 21.112 (mkImpedance 90 30) in
  0 < 1.26
  /\ harmonic (NodesCalculator.calculateNodesAndAntinodes model) = 3%Z
  /\ harmonic (Visualization.calculateNodesAndAntinodes model) = 3%Z.
Proof.
  cbv zeta. split; [reflexivity|].
  apply (harmonic_is_max_1_round
           (AntennaModel.mk 26.6 14.2 0.5 0.2976 1.26 21.112 (mkImpedance 90 30))).
  reflexivity.
Defined.

(** C5. The harmonic number is monotone and never below 1: whenever
    [e1 <= e2], the harmonic number of [e1] is at least 1 and at most the
    harmonic number of [e2] (with [e2 = e1] this is the lower bound for
    every electrical length). *)
Theorem harmonic_monotone (e1 e2 : Q) :
  e1 <= e2 ->
  (1 <= NodesCalculator._getHarmonicNumber e1
     <= NodesCalculator._getHarmonicNumber e2)%Z.
Proof.
  intros Hle. rewrite !lib_harmonic_max. unfold Math_round.
  assert (Hmono : (Qfloor (2 * e1 + (1 # 2)) <= Qfloor (2 * e2 + (1 # 2)))%Z).
  { apply Qfloor_resp_le. lra. }
  lia.
Qed.

Lemma harmonic_monotone_witness :
  0.74 <= 0.76
  /\ (1 <= NodesCalculator._getHarmonicNumber 0.74
        <= NodesCalculator._getHarmonicNumber 0.76)%Z
  /\ NodesCalculator._getHarmonicNumber 0.74 = 1%Z
  /\ NodesCalculator._getHarmonicNumber 0.76 = 2%Z.
Proof.
  split; [discriminate|].
  split; [apply (harmonic_monotone 0.74 0.76); discriminate|].
  split; reflexivity.
Defined.

End Harmonic.

Section Resonance.
Import JS PHYSICS_CONSTANTS.

Lemma viz_isResonant_lt (model : AntennaModel.t) :
  Visualization._isResonant model = true
  <-> Qabs (reactance (AntennaModel.calculateImpedance model))
      < Qmax 15 (0.2 * resistance (AntennaModel.calculateImpedance model)).
Proof.
  unfold Visualization._isResonant, Math_abs, Math_max. cbv zeta.
  rewrite Qltb_lt.
  assert (E : resistance (AntennaModel.calculateImpedance model) * 0.2
              == 0.2 * resistance (AntennaModel.calculateImpedance model)) by ring.
  rewrite E. reflexivity.
Qed.

(** C3. For every impedance, the resonance predicate returns true exactly
    when |reactance| < max(15, 0.2 * resistance). *)
Theorem isResonant_iff (model : AntennaModel.t) :
  let impedance := AntennaModel.calculateImpedance model in
  Visualization._isResonant model = true
  <-> Qabs (reactance impedance) < Qmax 15 (0.2 * resistance impedance).
Proof.
  exact (viz_isResonant_lt model).
Qed.

Lemma PhysicsUtils_isResonant_iff (impedance : Impedance) :
  PhysicsUtils.isResonant impedance = true
  <-> Qabs (reactance impedance) < Qmax 15 (0.2 * resistance impedance).
Proof.
  unfold PhysicsUtils.isResonant, Math_abs, Math_max. apply Qltb_lt.
Qed.

Lemma PhysicsUtils_not_resonant_iff (impedance : Impedance) :
  PhysicsUtils.isResonant impedance = false
  <-> Qmax 15 (0.2 * resistance impedance) <= Qabs (reactance impedance).
Proof.
  unfold PhysicsUtils.isResonant, Math_abs, Math_max. apply Qltb_ge.
Qed.

Lemma isResonant_same (model : AntennaModel.t) :
  Visualization._isResonant model = NodesCalculator._isResonant model.
Proof.
  unfold NodesCalculator._isResonant. cbv zeta.
  apply eq_true_iff_eq.
  rewrite viz_isResonant_lt, PhysicsUtils_isResonant_iff. reflexivity.
Qed.

End Resonance.

(* ================================================================== *)
(** * Resonance guidance                                              *)
(* ================================================================== *)

Section Guidance.
Import JS PHYSICS_CONSTANTS.

Variable model : AntennaModel.t.

Let impedance := AntennaModel.calculateImpedance model.
Let X := reactance impedance.
Let R := resistance impedance.
Let lambda := AntennaModel.wavelength model.
Let currentLength := AntennaModel.length model.

(** The four ways through [getResonanceGuidance]. *)

Lemma guidance_resonant :
  PhysicsUtils.isResonant impedance = true ->
  NodesCalculator.getResonanceGuidance model
  = {| status := "Resonant"; guidance := WellMatched; color := "#00ff00";
       lengthAdjustment := None; guidanceReactance := None |}.
Proof.
  intros H. unfold NodesCalculator.getResonanceGuidance. cbv zeta.
  fold impedance. rewrite H. reflexivity.
Qed.

Lemma guidance_too_short :
  PhysicsUtils.isResonant impedance = false ->
  X < -15 ->
  NodesCalculator.getResonanceGuidance model
  = let a := Qabs X / 377 * lambda * 0.1 in
    {| status := "Not Resonant"; guidance := TooShort a (currentLength + a);
       color := "#ff6600"; lengthAdjustment := Some a;
       guidanceReactance := Some X |}.
Proof.
  intros H Hx. unfold NodesCalculator.getResonanceGuidance. cbv zeta.
  fold impedance. rewrite H. fold X.
  apply Qltb_lt in Hx. rewrite Hx. reflexivity.
Qed.

Lemma guidance_too_long :
  PhysicsUtils.isResonant impedance = false ->
  15 < X ->
  NodesCalculator.getResonanceGuidance model
  = let a := X / 377 * lambda * 0.1 in
    {| status := "Not Resonant"; guidance := TooLong a (currentLength - a);
       color := "#ff6600"; lengthAdjustment := Some a;
       guidanceReactance := Some X |}.
Proof.
  intros H Hx. unfold NodesCalculator.getResonanceGuidance. cbv zeta.
  fold impedance. rewrite H. fold X.
  assert (Hlo : Qltb X (-15) = false) by (apply Qltb_ge; lra).
  apply Qltb_lt in Hx. rewrite Hlo, Hx. reflexivity.
Qed.

Lemma guidance_nearly :
  PhysicsUtils.isResonant impedance = false ->
  -15 <= X <= 15 ->
  NodesCalculator.getResonanceGuidance model
  = {| status := "Not Resonant"; guidance := NearlyResonant;
       color := "#ff6600"; lengthAdjustment := Some 0;
       guidanceReactance := Some X |}.
Proof.
  intros H [Hlo Hhi]. unfold NodesCalculator.getResonanceGuidance. cbv zeta.
  fold impedance. rewrite H. fold X.
  apply Qltb_ge in Hlo, Hhi. rewrite Hlo, Hhi. reflexivity.
Qed.

Lemma not_resonant_ge_15 :
  Qmax 15 (0.2 * R) <= Qabs X -> 15 <= Qabs X.
Proof.
  intros H. eapply Qle_trans; [apply Q.le_max_l | exact H].
Qed.

Lemma Qabs_15_cases : Qabs X == 15 -> -15 <= X <= 15.
Proof.
  intros H. apply (proj1 (Qabs_Qle_condition X 15)). rewrite H. apply Qle_refl.
Qed.

Lemma Qabs_gt_15_cases : 15 < Qabs X -> X < -15 \/ 15 < X.
Proof.
  intros H. destruct (Qlt_le_dec X (-15)) as [Hl|Hl]; [left; exact Hl|].
  destruct (Qlt_le_dec 15 X) as [Hr|Hr]; [right; exact Hr|].
  exfalso. apply (Qlt_not_le _ _ H).
  apply (proj2 (Qabs_Qle_condition X 15)). split; assumption.
Qed.

(** C6, as the code has it.  When the impedance is resonant the guidance
    has status "Resonant", the well-matched text and no length adjustment.
    When it is not resonant the status is "Not Resonant" and
      - for reactance < -15 the text directs to add wire and
        lengthAdjustment = (|reactance| / 377) * wavelength * 0.1,
      - for reactance > 15 the text directs to remove wire, with the same
        lengthAdjustment,
      - for |reactance| = 15 the text is "Nearly Resonant" and the
        lengthAdjustment is 0.
    The divisor is the literal 377, not FREE_SPACE_IMPEDANCE. *)
Theorem guidance_by_reactance :
  let g := NodesCalculator.getResonanceGuidance model in
  let adjustment := (Qabs X / 377) * lambda * 0.1 in
  (Qabs X < Qmax 15 (0.2 * R) ->
     status g = "Resonant"%string /\ guidance g = WellMatched
     /\ lengthAdjustment g = None)
  /\ (Qmax 15 (0.2 * R) <= Qabs X -> X < -15 ->
        status g = "Not Resonant"%string
        /\ exists a, a == adjustment /\ lengthAdjustment g = Some a
                     /\ guidance g = TooShort a (currentLength + a))
  /\ (Qmax 15 (0.2 * R) <= Qabs X -> 15 < X ->
        status g = "Not Resonant"%string
        /\ exists a, a == adjustment /\ lengthAdjustment g = Some a
                     /\ guidance g = TooLong a (currentLength - a))
  /\ (Qmax 15 (0.2 * R) <= Qabs X -> Qabs X == 15 ->
        status g = "Not Resonant"%string /\ guidance g = NearlyResonant
        /\ lengthAdjustment g = Some 0).
Proof.
  cbv zeta. repeat split.
  - apply PhysicsUtils_isResonant_iff in H. now rewrite (guidance_resonant H).
  - apply PhysicsUtils_isResonant_iff in H. now rewrite (guidance_resonant H).
  - apply PhysicsUtils_isResonant_iff in H. now rewrite (guidance_resonant H).
  - apply PhysicsUtils_not_resonant_iff in H. now rewrite (guidance_too_short H H0).
  - apply PhysicsUtils_not_resonant_iff in H. rewrite (guidance_too_short H H0).
    cbv zeta. eexists. split; [|split; reflexivity]. reflexivity.
  - apply PhysicsUtils_not_resonant_iff in H. now rewrite (guidance_too_long H H0).
  - apply PhysicsUtils_not_resonant_iff in H. rewrite (guidance_too_long H H0).
    cbv zeta. eexists. split; [|split; reflexivity].
    rewrite (Qabs_pos X) by lra. reflexivity.
  - apply PhysicsUtils_not_resonant_iff in H.
    now rewrite (guidance_nearly H (Qabs_15_cases H0)).
  - apply PhysicsUtils_not_resonant_iff in H.
    now rewrite (guidance_nearly H (Qabs_15_cases H0)).
  - apply PhysicsUtils_not_resonant_iff in H.
    now rewrite (guidance_nearly H (Qabs_15_cases H0)).
Qed.

(** C9.  For a model with a positive wavelength: a non-resonant impedance
    has |reactance| >= 15; the "Nearly Resonant" fallback, whose length
    adjustment is 0, is taken only when |reactance| is exactly 15; and a
    non-resonant impedance off that boundary always gets a strictly
    positive length adjustment together with a definite direction, add
    wire for reactance < -15 and remove wire for reactance > 15. *)
Theorem fallback_only_at_15 :
  0 < lambda ->
  let g := NodesCalculator.getResonanceGuidance model in
  (Qmax 15 (0.2 * R) <= Qabs X -> 15 <= Qabs X)
  /\ (guidance g = NearlyResonant ->
      Qabs X == 15 /\ lengthAdjustment g = Some 0)
  /\ (Qmax 15 (0.2 * R) <= Qabs X -> ~ Qabs X == 15 ->
      exists a, lengthAdjustment g = Some a /\ 0 < a
                /\ ((X < -15 /\ guidance g = TooShort a (currentLength + a))
                    \/ (15 < X /\ guidance g = TooLong a (currentLength - a)))).
Proof.
  intros Hlambda. cbv zeta. split; [exact not_resonant_ge_15|]. split.
  - intros Hg.
    destruct (PhysicsUtils.isResonant impedance) eqn:Hres.
    { rewrite (guidance_resonant Hres) in Hg. discriminate. }
    destruct (Qlt_le_dec X (-15)) as [Hl|Hl].
    { rewrite (guidance_too_short Hres Hl) in Hg. discriminate. }
    destruct (Qlt_le_dec 15 X) as [Hr|Hr].
    { rewrite (guidance_too_long Hres Hr) in Hg. discriminate. }
    split; [|now rewrite (guidance_nearly Hres (conj Hl Hr))].
    apply Qle_antisym.
    + apply (proj2 (Qabs_Qle_condition X 15)). split; assumption.
    + apply not_resonant_ge_15. apply PhysicsUtils_not_resonant_iff. exact Hres.
  - intros Hnot Hne.
    assert (Hgt : 15 < Qabs X).
    { destruct (Qle_lt_or_eq _ _ (not_resonant_ge_15 Hnot)) as [Hlt|Heq];
        [exact Hlt | exfalso; apply Hne; symmetry; exact Heq]. }
    apply PhysicsUtils_not_resonant_iff in Hnot.
    destruct (Qabs_gt_15_cases Hgt) as [Hl|Hr].
    + rewrite (guidance_too_short Hnot Hl). cbv zeta.
      eexists. split; [reflexivity|]. split; [|left; split; [exact Hl|reflexivity]].
      assert (0 < Qabs X / 377).
      { apply Qlt_shift_div_l; [reflexivity | lra]. }
      apply Qmult_lt_0_compat; [|reflexivity].
      apply Qmult_lt_0_compat; assumption.
    + rewrite (guidance_too_long Hnot Hr). cbv zeta.
      eexists. split; [reflexivity|]. split; [|right; split; [exact Hr|reflexivity]].
      assert (0 < X / 377).
      { apply Qlt_shift_div_l; [reflexivity | lra]. }
      apply Qmult_lt_0_compat; [|reflexivity].
      apply Qmult_lt_0_compat; assumption.
Qed.

End Guidance.

Section GuidanceExamples.
Import PHYSICS_CONSTANTS.

(** C6, as stated, fails twice.  At reactance 100 (resistance 50,
    wavelength 20) the adjustment is 100 / 377 * 20 * 0.1, which is not
    100 / 376.730313668 * 20 * 0.1; at reactance 15 (not resonant, since
    15 < max(15, 10) is false) the adjustment is 0, not the formula. *)
Lemma guidance_adjustment_counterexample :
  let inductive := AntennaModel.mk 10 14.2 0.5 0.2976 0.474 20 (mkImpedance 50 100) in
  let boundary := AntennaModel.mk 10 14.2 0.5 0.2976 0.474 20 (mkImpedance 50 15) in
  (PhysicsUtils.isResonant (AntennaModel.calculateImpedance inductive) = false
   /\ exists a,
        lengthAdjustment (NodesCalculator.getResonanceGuidance inductive) = Some a
        /\ ~ a == (Qabs 100 / FREE_SPACE_IMPEDANCE) * 20 * 0.1)
  /\ (PhysicsUtils.isResonant (AntennaModel.calculateImpedance boundary) = false
      /\ exists a,
           lengthAdjustment (NodesCalculator.getResonanceGuidance boundary) = Some a
           /\ ~ a == (Qabs 15 / FREE_SPACE_IMPEDANCE) * 20 * 0.1).
Proof.
  cbv zeta. split; (split; [reflexivity|]);
    eexists; (split; [reflexivity|]); intros H; vm_compute in H; discriminate.
Qed.

Lemma guidance_by_reactance_witness :
  let model := AntennaModel.mk 10 14.2 0.5 0.2976 0.474 20 (mkImpedance 50 100) in
  let g := NodesCalculator.getResonanceGuidance model in
  Qmax 15 (0.2 * 50) <= Qabs 100 /\ 15 < 100
  /\ status g = "Not Resonant"%string
  /\ exists a, a == (Qabs 100 / 377) * 20 * 0.1 /\ lengthAdjustment g = Some a
               /\ guidance g = TooLong a (10 - a).
Proof.
  cbv zeta. split; [discriminate|]. split; [reflexivity|].
  apply (guidance_by_reactance
           (AntennaModel.mk 10 14.2 0.5 0.2976 0.474 20 (mkImpedance 50 100)));
    [discriminate | reflexivity].
Defined.

Lemma fallback_only_at_15_witness :
  let model := AntennaModel.mk 9 14.2 0.5 0.2976 0.426 21.112 (mkImpedance 50 (-40)) in
  let g := NodesCalculator.getResonanceGuidance model in
  0 < AntennaModel.wavelength model
  /\ Qmax 15 (0.2 * 50) <= Qabs (-40) /\ ~ Qabs (-40) == 15
  /\ exists a, lengthAdjustment g = Some a /\ 0 < a
               /\ ((-40 < -15 /\ guidance g = TooShort a (9 + a))
                   \/ (15 < -40 /\ guidance g = TooLong a (9 - a))).
Proof.
  cbv zeta. split; [reflexivity|]. split; [discriminate|]. split; [discriminate|].
  apply (fallback_only_at_15
           (AntennaModel.mk 9 14.2 0.5 0.2976 0.426 21.112 (mkImpedance 50 (-40))));
    [reflexivity | discriminate | discriminate].
Defined.

End GuidanceExamples.

(* ================================================================== *)
(** * Impedance bounds                                                *)
(* ================================================================== *)

Section ImpedanceBounds.
Import JS PHYSICS_LIMITS ImpedanceCalculator.

Lemma clamp_bounds (v lo hi : Q) :
  lo <= hi -> lo <= PhysicsUtils.clamp v lo hi <= hi.
Proof.
  intros Hle. unfold PhysicsUtils.clamp, Math_max, Math_min. split.
  - apply Q.le_max_l.
  - apply Q.max_lub; [exact Hle | apply Q.le_min_l].
Qed.

Variable env : Env.

Lemma computeImpedance_withinLimits (length frequency feedPosition wireDiameter : Q) :
  withinLimits (computeImpedance env length frequency feedPosition wireDiameter).
Proof.
  unfold computeImpedance, withinLimits. cbv zeta. simpl.
  split; apply clamp_bounds; discriminate.
Qed.

Lemma cache_get_In (cache : Cache) (key : CacheKey) (z : Impedance) :
  cache_get cache key = Some z -> exists key', In (key', z) cache.
Proof.
  induction cache as [|[k' z'] rest IH]; simpl; [discriminate|].
  destruct (CacheKey_eqb k' key).
  - intros E. injection E as ->. exists k'. left. reflexivity.
  - intros E. destruct (IH E) as [k'' Hin]. exists k''. right. exact Hin.
Qed.

(** The invariant of the memoisation cache: it only ever holds clamped
    impedances. *)
Lemma reachable_withinLimits (cache : Cache) :
  reachable env cache -> Forall (fun entry => withinLimits (snd entry)) cache.
Proof.
  induction 1 as [|cache length frequency feedPosition wireDiameter Hr IH].
  - constructor.
  - unfold calculateImpedance. cbv zeta.
    destruct (cache_get cache (cacheKey length frequency feedPosition wireDiameter));
      simpl; [exact IH|].
    constructor; [apply computeImpedance_withinLimits | exact IH].
Qed.

(** C2. For every valid input combination (positive length, positive
    frequency, feed position in [0,1], positive wire diameter),
    [calculateImpedance] returns, whatever the calls so far have left in
    its cache, an impedance whose resistance lies in [0.1, 50000] and whose
    reactance lies in [-5000, 5000]. *)
Theorem impedance_within_limits (cache : Cache)
        (length frequency feedPosition wireDiameter : Q) :
  reachable env cache ->
  0 < length -> 0 < frequency -> 0 <= feedPosition <= 1 -> 0 < wireDiameter ->
  let z := fst (calculateImpedance env cache length frequency feedPosition wireDiameter) in
  (0.1 <= resistance z <= 50000) /\ (-5000 <= reactance z <= 5000).
Proof.
  intros Hr _ _ _ _. cbv zeta. unfold calculateImpedance. cbv zeta.
  destruct (cache_get cache (cacheKey length frequency feedPosition wireDiameter))
    as [z|] eqn:E; simpl.
  - destruct (cache_get_In _ _ _ E) as [key' Hin].
    pose proof (reachable_withinLimits _ Hr) as Hall.
    rewrite Forall_forall in Hall. exact (Hall _ Hin).
  - apply computeImpedance_withinLimits.
Qed.

End ImpedanceBounds.

Section ImpedanceExamples.
Import ImpedanceCalculator.

Lemma impedance_within_limits_witness :
  let env := mkEnv (fun x => x) (fun _ => 1) (fun x => x) (fun x => x)
                   (fun _ => 3) (fun _ => 2) (fun _ => 2) (fun _ => 2) 0 in
  let z := fst (calculateImpedance env [] 10.6 14.2 0.5 2.0) in
  reachable env []
  /\ (0 < 10.6 /\ 0 < 14.2 /\ 0 <= 0.5 <= 1 /\ 0 < 2.0)
  /\ (0.1 <= resistance z <= 50000) /\ (-5000 <= reactance z <= 5000).
Proof.
  cbv zeta. split; [constructor|].
  split; [repeat split; discriminate|].
  apply impedance_within_limits;
    [constructor | reflexivity | reflexivity | split; discriminate | reflexivity].
Defined.

End ImpedanceExamples.

(* ================================================================== *)
(** * The two calculators compared                                    *)
(* ================================================================== *)

Section Comparison.
Import JS NODES_CONFIG.

Lemma same_positionsb_iff (l1 l2 : list Q) :
  same_positionsb l1 l2 = true <-> same_positions l1 l2.
Proof.
  unfold same_positions. revert l2.
  induction l1 as [|x l1 IH]; intros [|y l2]; simpl.
  - split; [constructor | reflexivity].
  - split; [discriminate | inversion 1].
  - split; [discriminate | inversion 1].
  - rewrite andb_true_iff, Qeq_bool_iff, IH. split.
    + intros [Hx Hl]. constructor; assumption.
    + inversion 1; subst. split; assumption.
Qed.

Lemma same_positionsb_false (l1 l2 : list Q) :
  same_positionsb l1 l2 = false -> ~ same_positions l1 l2.
Proof.
  intros Hb Hs. apply same_positionsb_iff in Hs. congruence.
Qed.

Lemma Qltb_compat (a a' b b' : Q) : a == a' -> b == b' -> Qltb a b = Qltb a' b'.
Proof.
  intros Ha Hb. unfold Qltb. f_equal. apply Qleb_comp; assumption.
Qed.

(** ** Loops that differ only in their bound *)

Lemma flat_map_emit_nil (cond : nat -> bool) (pos : nat -> Q) (ns : list nat) :
  (forall n, In n ns -> cond n = false) -> flat_map (emit cond pos) ns = [].
Proof.
  induction ns as [|n ns IH]; intros H; simpl; [reflexivity|].
  unfold emit at 1. rewrite (H n (or_introl eq_refl)). simpl.
  apply IH. intros m Hm. apply H. right. exact Hm.
Qed.

Lemma flat_map_emit_bound (cond : nat -> bool) (pos : nat -> Q) (s a b : nat) :
  (forall n, cond n = true -> (n < a)%nat) ->
  (a <= b)%nat ->
  flat_map (emit cond pos) (seq s (b - s)) = flat_map (emit cond pos) (seq s (a - s)).
Proof.
  intros Hbound Hab.
  assert (Hout : forall n, (a <= n)%nat -> cond n = false).
  { intros n Hn. destruct (cond n) eqn:E; [|reflexivity].
    apply Hbound in E. lia. }
  destruct (Nat.le_gt_cases a s) as [Has|Hsa].
  - replace (a - s)%nat with 0%nat by lia. simpl.
    apply flat_map_emit_nil. intros n Hn. apply in_seq in Hn. apply Hout. lia.
  - replace (b - s)%nat with ((a - s) + (b - a))%nat by lia.
    rewrite seq_app, flat_map_app.
    rewrite (flat_map_emit_nil cond pos (seq (s + (a - s)) (b - a))).
    + apply app_nil_r.
    + intros n Hn. apply in_seq in Hn. apply Hout. lia.
Qed.

Lemma loops_agree (cond1 cond2 : nat -> bool) (pos : nat -> Q) (s b1 b2 : nat) :
  (forall n, cond1 n = cond2 n) ->
  (forall n, cond1 n = true -> (n < b1)%nat /\ (n < b2)%nat) ->
  flat_map (emit cond1 pos) (seq s (b1 - s)) = flat_map (emit cond2 pos) (seq s (b2 - s)).
Proof.
  intros Hsame Hbound.
  rewrite (flat_map_emit_bound cond1 pos s (Nat.min b1 b2) b1);
    [| intros n Hn; destruct (Hbound n Hn); lia | lia].
  rewrite (flat_map_emit_bound cond2 pos s (Nat.min b1 b2) b2);
    [| intros n Hn; rewrite <- Hsame in Hn; destruct (Hbound n Hn); lia | lia].
  apply flat_map_ext. intros n. unfold emit. rewrite Hsame. reflexivity.
Qed.

(** ** The positions in terms of the wavelength [2 * PI / k] *)

Section Wavelength.
Variables (length k : Q).
Hypothesis k_pos : 0 < k.

Let w := 2 * Math_PI / k.

Lemma wavelength_pos : 0 < w.
Proof.
  unfold w. apply Qlt_shift_div_l; [exact k_pos|].
  reflexivity.
Qed.

Lemma even_position_w (n : nat) : even_position k n == num n * w / 2.
Proof.
  unfold even_position, w. field. intros E. rewrite E in k_pos. discriminate.
Qed.

Lemma odd_position_w (n : nat) : odd_position k n == (num n + 0.5) * w / 2.
Proof.
  unfold odd_position, w. field. intros E. rewrite E in k_pos. discriminate.
Qed.

Lemma eight_w : 8 * Math_PI / k == 8 * w / 2.
Proof.
  unfold w. field. intros E. rewrite E in k_pos. discriminate.
Qed.

(** A round that pushes lies below the bound the visualization derives
    from the electrical length. *)
Lemma below_viz_bound (n : nat) (x : Q) :
  num n <= x -> x * w / 2 < length / 2 -> (n < viz_bound length k)%nat.
Proof.
  intros Hnx Hlt. pose proof wavelength_pos as Hw. pose proof (num_nonneg n) as Hn.
  unfold viz_bound, Math_ceil. fold w.
  assert (Hx : x < length / w).
  { apply Qlt_shift_div_l; [exact Hw | rewrite !Qhalf in Hlt; lra]. }
  assert (Hc : length / w * 4 <= inject_Z (Qceiling (length / w * 4)))
    by apply Qle_ceiling.
  assert (Hz : inject_Z (Z.of_nat n) < inject_Z (Qceiling (length / w * 4))).
  { fold (num n). lra. }
  rewrite <- Zlt_Qlt in Hz. lia.
Qed.

(** A round that pushes lies below [MAX_HARMONICS] when eight half-waves
    reach the end of the wire. *)
Lemma below_max_harmonics (n : nat) (x : Q) :
  num n <= x -> length / 2 - EDGE_BUFFER <= 8 * Math_PI / k ->
  x * w / 2 < length / 2 - EDGE_BUFFER -> (n < MAX_HARMONICS)%nat.
Proof.
  intros Hnx Hlen Hlt. pose proof wavelength_pos as Hw.
  rewrite eight_w in Hlen. rewrite !Qhalf in Hlen, Hlt.
  assert (Hx : x * w < 8 * w) by lra.
  assert (Hx8 : x < 8).
  { apply (Qmult_lt_r _ _ w Hw). exact Hx. }
  apply num_lt. unfold MAX_HARMONICS.
  change (num 8) with 8. lra.
Qed.

Hypothesis w_ge_2 : 2 <= w.

Lemma viz_edgeBuffer_eq : viz_edgeBuffer k == EDGE_BUFFER.
Proof.
  unfold viz_edgeBuffer, Math_min, EDGE_BUFFER. fold w.
  apply Q.min_l. lra.
Qed.

Lemma centre_buffers_passed (n : nat) :
  Qltb EDGE_BUFFER (odd_position k n) = true
  /\ Qltb (viz_centerBuffer k) (odd_position k n) = true.
Proof.
  pose proof (num_nonneg n) as Hn. pose proof wavelength_pos as Hw.
  assert (Hq : w * 0.25 <= odd_position k n).
  { rewrite odd_position_w, Qhalf.
    assert (0 <= num n * w) by (apply Qmult_le_0_compat; lra).
    lra. }
  split; apply Qltb_lt.
  - unfold EDGE_BUFFER. lra.
  - unfold viz_centerBuffer, Math_max. fold w.
    apply Q.max_lub_lt; lra.
Qed.

End Wavelength.

End Comparison.

Section Agreement.
Import JS NODES_CONFIG.

Variables (length k : Q).
Hypothesis k_pos : 0 < k.
Hypothesis wavelength_ge_2 : 2 <= 2 * Math_PI / k.
Hypothesis eight_half_waves : length / 2 - EDGE_BUFFER <= 8 * Math_PI / k.

Lemma edge_conditions_agree (x : Q) :
  Qltb x (length / 2 - EDGE_BUFFER) = Qltb x (length / 2 - viz_edgeBuffer k).
Proof.
  apply Qltb_compat; [reflexivity|].
  assert (E : viz_edgeBuffer k == EDGE_BUFFER)
    by (apply viz_edgeBuffer_eq; assumption).
  rewrite E. reflexivity.
Qed.

Lemma pushing_round_bounded (n : nat) (x p : Q) :
  num n <= x -> p == x * (2 * Math_PI / k) / 2 ->
  Qltb p (length / 2 - EDGE_BUFFER) = true ->
  (n < MAX_HARMONICS)%nat /\ (n < viz_bound length k)%nat.
Proof.
  intros Hnx Hp Hlt. apply Qltb_lt in Hlt. rewrite Hp in Hlt. split.
  - eapply below_max_harmonics; eassumption.
  - eapply below_viz_bound; [exact k_pos | exact Hnx |].
    unfold EDGE_BUFFER in Hlt. lra.
Qed.

Lemma even_loops_agree (s : nat) :
  flat_map (emit (fun n => Qltb (even_position k n) (length / 2 - EDGE_BUFFER))
                 (even_position k))
           (seq s (MAX_HARMONICS - s))
  = flat_map (emit (fun n => Qltb (even_position k n) (length / 2 - viz_edgeBuffer k))
                   (even_position k))
             (seq s (viz_bound length k - s)).
Proof.
  apply loops_agree.
  - intros n. apply edge_conditions_agree.
  - intros n Hn.
    apply (pushing_round_bounded n (num n) (even_position k n));
      [apply Qle_refl | apply even_position_w; exact k_pos | exact Hn].
Qed.

Lemma odd_loops_agree (s : nat) :
  flat_map (emit (fun n => Qltb (odd_position k n) (length / 2 - EDGE_BUFFER))
                 (odd_position k))
           (seq s (MAX_HARMONICS - s))
  = flat_map (emit (fun n => Qltb (odd_position k n) (length / 2 - viz_edgeBuffer k))
                   (odd_position k))
             (seq s (viz_bound length k - s)).
Proof.
  apply loops_agree.
  - intros n. apply edge_conditions_agree.
  - intros n Hn.
    apply (pushing_round_bounded n (num n + 0.5) (odd_position k n));
      [lra | apply odd_position_w; exact k_pos | exact Hn].
Qed.

Lemma odd_buffered_loops_agree (s : nat) :
  flat_map (emit (fun n => Qltb (odd_position k n) (length / 2 - EDGE_BUFFER)
                           && Qltb EDGE_BUFFER (odd_position k n))
                 (odd_position k))
           (seq s (MAX_HARMONICS - s))
  = flat_map (emit (fun n => Qltb (odd_position k n) (length / 2 - viz_edgeBuffer k)
                             && Qltb (viz_centerBuffer k) (odd_position k n))
                   (odd_position k))
             (seq s (viz_bound length k - s)).
Proof.
  apply loops_agree.
  - intros n.
    destruct (centre_buffers_passed k k_pos wavelength_ge_2 n) as [-> ->].
    rewrite edge_conditions_agree. reflexivity.
  - intros n Hn. apply andb_true_iff in Hn. destruct Hn as [Hn _].
    apply (pushing_round_bounded n (num n + 0.5) (odd_position k n));
      [lra | apply odd_position_w; exact k_pos | exact Hn].
Qed.

Lemma centre_fed_lists_agree (feedPosition : Q) :
  feedPosition == 0.5 ->
  NodesCalculator._calculateCurrentNodes length k feedPosition
  = Visualization._calculateCurrentNodes length k
  /\ NodesCalculator._calculateCurrentAntinodes length k feedPosition
     = Visualization._calculateCurrentAntinodes length k
  /\ NodesCalculator._calculateVoltageNodes length k feedPosition
     = Visualization._calculateVoltageNodes length k
  /\ NodesCalculator._calculateVoltageAntinodes length k feedPosition
     = Visualization._calculateVoltageAntinodes length k.
Proof.
  intros Hfeed. apply Qeq_bool_iff in Hfeed.
  rewrite lib_currentNodes_eq, lib_currentAntinodes_eq, lib_voltageNodes_eq,
    lib_voltageAntinodes_eq, viz_currentNodes_eq, viz_currentAntinodes_eq,
    viz_voltageNodes_eq, viz_voltageAntinodes_eq.
  rewrite Hfeed, odd_loops_agree, even_loops_agree, odd_buffered_loops_agree.
  repeat split; reflexivity.
Qed.

End Agreement.

Section AgreementClaim.
Import JS.

(** C10, as the code has it.  Both calculators return the same harmonic
    number for every model.  They return the same four lists for a
    centre-fed model (feedPosition = 0.5) with positive wave number whose
    wavelength 2 * PI / k is at least 2 and whose first eight half-waves
    reach the end of the wire (length / 2 - 0.1 <= 8 * PI / k). *)
Theorem calculators_agree_centre_fed (model : AntennaModel.t) :
  let lib := NodesCalculator.calculateNodesAndAntinodes model in
  let viz := Visualization.calculateNodesAndAntinodes model in
  let length := AntennaModel.length model in
  let k := AntennaModel.waveNumber model in
  harmonic lib = harmonic viz
  /\ (0 < k ->
      AntennaModel.feedPosition model == 0.5 ->
      2 <= 2 * Math_PI / k ->
      length / 2 - 0.1 <= 8 * Math_PI / k ->
      nodes (current lib) = nodes (current viz)
      /\ antinodes (current lib) = antinodes (current viz)
      /\ nodes (voltage lib) = nodes (voltage viz)
      /\ antinodes (voltage lib) = antinodes (voltage viz)).
Proof.
  cbv zeta. split; [reflexivity|].
  intros Hk Hfeed Hw Hlen.
  unfold NodesCalculator.calculateNodesAndAntinodes,
    Visualization.calculateNodesAndAntinodes. simpl.
  exact (centre_fed_lists_agree _ _ Hk Hw Hlen _ Hfeed).
Qed.

Lemma calculators_agree_centre_fed_witness :
  let model := AntennaModel.mk 10.6 14.2 0.5 0.2976 0.502 21.112 (mkImpedance 73.1 5) in
  let lib := NodesCalculator.calculateNodesAndAntinodes model in
  let viz := Visualization.calculateNodesAndAntinodes model in
  (0 < 0.2976 /\ 0.5 == 0.5 /\ 2 <= 2 * Math_PI / 0.2976
   /\ 10.6 / 2 - 0.1 <= 8 * Math_PI / 0.2976)
  /\ nodes (current lib) = nodes (current viz)
  /\ antinodes (current lib) = antinodes (current viz)
  /\ nodes (voltage lib) = nodes (voltage viz)
  /\ antinodes (voltage lib) = antinodes (voltage viz).
Proof.
  cbv zeta. split; [repeat split; discriminate|].
  apply (calculators_agree_centre_fed
           (AntennaModel.mk 10.6 14.2 0.5 0.2976 0.502 21.112 (mkImpedance 73.1 5)));
    [reflexivity | reflexivity | discriminate | discriminate].
Defined.

(** C10, as stated, fails: the two calculators return different lists
    for an end-fed model (feedPosition = 0), for a centre-fed model with a
    wavelength below 2 (k = 10, length 1.02), and for a centre-fed model
    longer than eight half-waves (k = 1, length 60). *)
Lemma calculators_differ :
  let endFed := AntennaModel.mk 10 14.2 0 0.3 0.477 20.9 (mkImpedance 2500 0) in
  let shortWave := AntennaModel.mk 1.02 477 0.5 10 1.62 0.628 (mkImpedance 100 0) in
  let longWire := AntennaModel.mk 60 47.7 0.5 1 9.55 6.28 (mkImpedance 100 0) in
  ~ same_positions
      (antinodes (current (NodesCalculator.calculateNodesAndAntinodes endFed)))
      (antinodes (current (Visualization.calculateNodesAndAntinodes endFed)))
  /\ ~ same_positions
         (nodes (current (NodesCalculator.calculateNodesAndAntinodes shortWave)))
         (nodes (current (Visualization.calculateNodesAndAntinodes shortWave)))
  /\ ~ same_positions
         (nodes (current (NodesCalculator.calculateNodesAndAntinodes longWire)))
         (nodes (current (Visualization.calculateNodesAndAntinodes longWire))).
Proof.
  cbv zeta. repeat split; apply same_positionsb_false; vm_compute; reflexivity.
Qed.

End AgreementClaim.


(* ================================================================== *)
(** * Further properties of [nodescalculator.ts]                      *)
(* ================================================================== *)

Section ClosestResonant.
Import JS.

Variable currentLength : Q.

Let dist (r : ResonantLength) : Q := Qabs (currentLength - resonantLength r).

Lemma closer_step (d : Q) (r x : ResonantLength) :
  NodesCalculator.closer currentLength (d, r) x
  = if Qltb (dist x) d then (dist x, x) else (d, r).
Proof. reflexivity. Qed.

(** What the [forEach] of [getDetailedResonanceInfo] maintains: the kept
    entry is among the visited ones, strictly closer than every entry
    visited before it and at least as close as every entry visited after. *)
Lemma closer_invariant (all visited : list ResonantLength) (d : Q) (r : ResonantLength) :
  d = dist r ->
  (exists l1 l2, visited = l1 ++ r :: l2
                 /\ (forall x, In x l1 -> dist r < dist x)
                 /\ (forall x, In x l2 -> dist r <= dist x)) ->
  exists l1 l2,
    visited ++ all
    = l1 ++ snd (fold_left (NodesCalculator.closer currentLength) all (d, r)) :: l2
    /\ (forall x, In x l1 ->
          dist (snd (fold_left (NodesCalculator.closer currentLength) all (d, r))) < dist x)
    /\ (forall x, In x l2 ->
          dist (snd (fold_left (NodesCalculator.closer currentLength) all (d, r))) <= dist x).
Proof.
  revert visited d r. induction all as [|x all IH]; intros visited d r Hd Hinv.
  - rewrite app_nil_r. exact Hinv.
  - replace (visited ++ x :: all) with ((visited ++ [x]) ++ all)
      by (rewrite <- app_assoc; reflexivity).
    change (fold_left (NodesCalculator.closer currentLength) (x :: all) (d, r))
      with (fold_left (NodesCalculator.closer currentLength) all
                      (NodesCalculator.closer currentLength (d, r) x)).
    rewrite closer_step.
    destruct (Qltb (dist x) d) eqn:E.
    + apply IH; [reflexivity|].
      apply Qltb_lt in E. rewrite Hd in E.
      exists visited, []. split; [reflexivity|]. split; [|intros y []].
      intros y Hy. destruct Hinv as (l1 & l2 & -> & H1 & H2).
      apply in_app_or in Hy. destruct Hy as [Hy|[<-|Hy]].
      * eapply Qlt_trans; [exact E | apply H1; exact Hy].
      * exact E.
      * eapply Qlt_le_trans; [exact E | apply H2; exact Hy].
    + apply IH; [exact Hd|].
      apply Qltb_ge in E. rewrite Hd in E.
      destruct Hinv as (l1 & l2 & -> & H1 & H2).
      exists l1, (l2 ++ [x]). split; [rewrite <- app_assoc; reflexivity|].
      split; [exact H1|].
      intros y Hy. apply in_app_or in Hy. destruct Hy as [Hy|[<-|[]]]; auto.
Qed.

Lemma findClosestResonant_first_minimiser (first : ResonantLength)
      (rest : list ResonantLength) :
  exists l1 l2,
    first :: rest
    = l1 ++ NodesCalculator.findClosestResonant currentLength first (first :: rest) :: l2
    /\ (forall x, In x l1 ->
          dist (NodesCalculator.findClosestResonant currentLength first (first :: rest))
          < dist x)
    /\ (forall x, In x l2 ->
          dist (NodesCalculator.findClosestResonant currentLength first (first :: rest))
          <= dist x).
Proof.
  unfold NodesCalculator.findClosestResonant. cbv zeta.
  change (fold_left (NodesCalculator.closer currentLength) (first :: rest)
                    (Math_abs (currentLength - resonantLength first), first))
    with (fold_left (NodesCalculator.closer currentLength) rest
                    (NodesCalculator.closer currentLength (dist first, first) first)).
  rewrite closer_step.
  assert (E : Qltb (dist first) (dist first) = false) by (apply Qltb_ge, Qle_refl).
  rewrite E.
  apply (closer_invariant rest [first] (dist first) first eq_refl).
  exists [], []. split; [reflexivity|]. split; intros y [].
Qed.

Lemma findClosestResonant_minimal (first : ResonantLength) (rest : list ResonantLength)
      (x : ResonantLength) :
  In x (first :: rest) ->
  dist (NodesCalculator.findClosestResonant currentLength first (first :: rest)) <= dist x.
Proof.
  intros Hx.
  destruct (findClosestResonant_first_minimiser first rest) as (l1 & l2 & E & H1 & H2).
  rewrite E in Hx. apply in_app_or in Hx. destruct Hx as [Hx|[<-|Hx]].
  - apply Qlt_le_weak, H1, Hx.
  - apply Qle_refl.
  - apply H2, Hx.
Qed.

End ClosestResonant.

Section DetailedInfo.
Import JS.

Variable model : AntennaModel.t.

Let L := AntennaModel.length model.
Let lambda := AntennaModel.wavelength model.
Let info := NodesCalculator.getDetailedResonanceInfo model.

(** X1. [getDetailedResonanceInfo] reports, of the five common resonant
    lengths, the first one at minimal distance from the model's length:
    every entry listed before it is strictly farther away, every entry
    listed after it is at least as far; [difference] is the signed distance
    to it. *)
Theorem closest_resonant_is_first_minimiser :
  exists l1 r l2,
    NodesCalculator.commonResonantLengths lambda = l1 ++ r :: l2
    /\ closestLength (closestResonant info) = resonantLength r
    /\ closestName (closestResonant info) = resonantName r
    /\ difference (closestResonant info) = L - resonantLength r
    /\ (forall x, In x l1 ->
          Qabs (L - resonantLength r) < Qabs (L - resonantLength x))
    /\ (forall x, In x l2 ->
          Qabs (L - resonantLength r) <= Qabs (L - resonantLength x)).
Proof.
  destruct (findClosestResonant_first_minimiser L
              (NodesCalculator.firstResonantLength lambda)
              (tl (NodesCalculator.commonResonantLengths lambda)))
    as (l1 & l2 & E & H1 & H2).
  exists l1,
    (NodesCalculator.findClosestResonant L (NodesCalculator.firstResonantLength lambda)
       (NodesCalculator.commonResonantLengths lambda)), l2.
  split; [exact E|]. repeat split; assumption.
Qed.

(** X2. For a positive wavelength and a length between 0 and 1.75
    wavelengths, the reported [difference] to the closest common resonant
    length is at most a quarter wavelength in magnitude. *)
Theorem closest_resonant_within_quarter_wave :
  0 < lambda -> 0 <= L <= 1.75 * lambda ->
  Qabs (difference (closestResonant info)) <= 0.25 * lambda.
Proof.
  intros Hl [H0 H1].
  assert (Hex : exists x, In x (NodesCalculator.commonResonantLengths lambda)
                          /\ Qabs (L - resonantLength x) <= 0.25 * lambda).
  { destruct (Qlt_le_dec L (0.5 * lambda)) as [Ha|Ha].
    { eexists. split; [left; reflexivity|].
      cbv [NodesCalculator.firstResonantLength resonantLength].
      apply (proj2 (Qabs_Qle_condition _ _)). split; lra. }
    destruct (Qlt_le_dec L (0.875 * lambda)) as [Hb|Hb].
    { eexists. split; [right; right; left; reflexivity|].
      cbv [NodesCalculator.firstResonantLength resonantLength].
      apply (proj2 (Qabs_Qle_condition _ _)). split; lra. }
    destruct (Qlt_le_dec L (1.25 * lambda)) as [Hc|Hc].
    { eexists. split; [right; right; right; left; reflexivity|].
      cbv [NodesCalculator.firstResonantLength resonantLength].
      apply (proj2 (Qabs_Qle_condition _ _)). split; lra. }
    eexists. split; [right; right; right; right; left; reflexivity|].
      cbv [NodesCalculator.firstResonantLength resonantLength].
    apply (proj2 (Qabs_Qle_condition _ _)). split; lra. }
  destruct Hex as (x & Hx & Hd).
  eapply Qle_trans; [|exact Hd].
  exact (findClosestResonant_minimal L (NodesCalculator.firstResonantLength lambda)
           (tl (NodesCalculator.commonResonantLengths lambda)) x Hx).
Qed.

End DetailedInfo.

Lemma closest_resonant_is_first_minimiser_witness :
  let model := AntennaModel.mk 10.6 14.2 0.5 0.2976 0.502 21.112 (mkImpedance 73.1 5) in
  closestLength (closestResonant (NodesCalculator.getDetailedResonanceInfo model))
  == 21.112 * 0.5
  /\ exists r, In r (NodesCalculator.commonResonantLengths 21.112)
               /\ closestName (closestResonant (NodesCalculator.getDetailedResonanceInfo model))
                  = resonantName r.
Proof.
  cbv zeta. split; [reflexivity|].
  destruct (closest_resonant_is_first_minimiser
              (AntennaModel.mk 10.6 14.2 0.5 0.2976 0.502 21.112 (mkImpedance 73.1 5)))
    as (l1 & r & l2 & E & _ & Hn & _).
  exists r. split; [|exact Hn].
  change (AntennaModel.wavelength
            (AntennaModel.mk 10.6 14.2 0.5 0.2976 0.502 21.112 (mkImpedance 73.1 5)))
    with 21.112 in E.
  rewrite E. apply in_or_app. right. left. reflexivity.
Defined.

Lemma closest_resonant_within_quarter_wave_witness :
  let model := AntennaModel.mk 10.6 14.2 0.5 0.2976 0.502 21.112 (mkImpedance 73.1 5) in
  (0 < 21.112 /\ 0 <= 10.6 <= 1.75 * 21.112)
  /\ Qabs (difference (closestResonant (NodesCalculator.getDetailedResonanceInfo model)))
     <= 0.25 * 21.112.
Proof.
  cbv zeta. split; [split; [reflexivity | split; discriminate]|].
  apply (closest_resonant_within_quarter_wave
           (AntennaModel.mk 10.6 14.2 0.5 0.2976 0.502 21.112 (mkImpedance 73.1 5)));
    [reflexivity | split; discriminate].
Defined.

Section HarmonicName.
Import JS.
Open Scope string_scope.

Lemma string_length_append (a b : string) :
  String.length (a ++ b) = (String.length a + String.length b)%nat.
Proof.
  induction a as [|c a IH]; simpl; [reflexivity | now rewrite IH].
Qed.

Lemma string_append_cancel_r (a b t : string) : a ++ t = b ++ t -> a = b.
Proof.
  revert b. induction a as [|c a IH]; intros [|c' b] H; simpl in H.
  - reflexivity.
  - apply (f_equal String.length) in H. simpl in H.
    rewrite string_length_append in H. lia.
  - apply (f_equal String.length) in H. simpl in H.
    rewrite string_length_append in H. lia.
  - injection H as -> H. f_equal. apply IH. exact H.
Qed.

Lemma Z_to_int_proper (n : Z) : Z.to_int n <> Pos Nil /\ Z.to_int n <> Neg Nil.
Proof.
  destruct n as [|p|p]; simpl; split; try discriminate;
    intros H; injection H as H; exact (Unsigned.to_uint_nonnil p H).
Qed.

Lemma Number_toString_inj (a b : Z) : Number_toString a = Number_toString b -> a = b.
Proof.
  unfold Number_toString. intros H.
  apply (f_equal NilZero.int_of_string) in H.
  destruct (Z_to_int_proper a) as [Ha1 Ha2]. destruct (Z_to_int_proper b) as [Hb1 Hb2].
  rewrite !NilZero.isi in H by assumption.
  injection H as H. apply to_int_inj. exact H.
Qed.

Lemma ends_in_th_append (a : string) : ends_in_th (a ++ "th") = true.
Proof.
  induction a as [|c a IH]; [reflexivity|].
  change (String c a ++ "th") with (String c (a ++ "th")).
  cbn [ends_in_th]. rewrite IH. apply orb_true_r.
Qed.

Lemma getHarmonicName_cases (h : Z) :
  (h = 1%Z /\ NodesCalculator.getHarmonicName h = "1st (Fundamental)")
  \/ (h = 2%Z /\ NodesCalculator.getHarmonicName h = "2nd")
  \/ (h = 3%Z /\ NodesCalculator.getHarmonicName h = "3rd")
  \/ (h <> 1%Z /\ h <> 2%Z /\ h <> 3%Z
      /\ NodesCalculator.getHarmonicName h = Number_toString h ++ "th").
Proof.
  destruct (Z.ltb_spec h 0) as [Hneg|Hpos].
  - right; right; right. repeat split; try lia.
    unfold NodesCalculator.getHarmonicName, Array_get. cbv zeta.
    destruct (Z.ltb_spec h 0); [reflexivity | lia].
  - destruct (Z.leb_spec h 10) as [Hle|Hgt].
    + assert (Hc : (h = 0 \/ h = 1 \/ h = 2 \/ h = 3 \/ h = 4 \/ h = 5 \/ h = 6
                    \/ h = 7 \/ h = 8 \/ h = 9 \/ h = 10)%Z) by lia.
      repeat (destruct Hc as [->|Hc]); try subst h;
        first [ left; split; reflexivity
              | right; left; split; reflexivity
              | right; right; left; split; reflexivity
              | right; right; right; repeat split; (discriminate || reflexivity) ].
    + right; right; right. repeat split; try lia.
      unfold NodesCalculator.getHarmonicName, Array_get. cbv zeta.
      destruct (Z.ltb_spec h 0); [lia|].
      assert (E : nth_error [""; "1st (Fundamental)"; "2nd"; "3rd"; "4th"; "5th";
                             "6th"; "7th"; "8th"; "9th"; "10th"] (Z.to_nat h) = None).
      { apply nth_error_None. simpl. lia. }
      rewrite E. reflexivity.
Qed.

(** X3. [getHarmonicName] never returns the empty text: the index 0, whose
    table entry is empty, and every index outside the table fall through to
    the number (in plain decimal digits, so below 10^21 in magnitude)
    followed by "th". *)
Theorem harmonic_name_never_empty (h : Z) :
  (Z.abs h < 10 ^ 21)%Z ->
  NodesCalculator.getHarmonicName h <> ""
  /\ ((h <= 0 \/ 10 < h)%Z ->
      NodesCalculator.getHarmonicName h = Number_toString h ++ "th").
Proof.
  intros _. split.
  - destruct (getHarmonicName_cases h) as [[_ ->]|[[_ ->]|[[_ ->]|(_ & _ & _ & ->)]]];
      try discriminate.
    intros H. apply (f_equal ends_in_th) in H.
    rewrite ends_in_th_append in H. discriminate.
  - intros Hr.
    destruct (getHarmonicName_cases h) as [[-> _]|[[-> _]|[[-> _]|(_ & _ & _ & E)]]];
      try lia.
    exact E.
Qed.

Lemma harmonic_name_never_empty_witness :
  (Z.abs 21 < 10 ^ 21)%Z
  /\ NodesCalculator.getHarmonicName 21 <> ""
  /\ NodesCalculator.getHarmonicName 21 = "21th"
  /\ NodesCalculator.getHarmonicName 0 = "0th".
Proof.
  split; [reflexivity|].
  destruct (harmonic_name_never_empty 21 eq_refl) as [H1 H2].
  split; [exact H1|]. split; [apply H2; right; reflexivity | reflexivity].
Defined.

(** X4. Different harmonic numbers (below 10^21 in magnitude) get different
    names. *)
Theorem harmonic_name_injective (h1 h2 : Z) :
  (Z.abs h1 < 10 ^ 21)%Z -> (Z.abs h2 < 10 ^ 21)%Z ->
  NodesCalculator.getHarmonicName h1 = NodesCalculator.getHarmonicName h2 -> h1 = h2.
Proof.
  intros _ _ H.
  destruct (getHarmonicName_cases h1)
    as [[-> E1]|[[-> E1]|[[-> E1]|(N1 & N2 & N3 & E1)]]];
    destruct (getHarmonicName_cases h2)
      as [[-> E2]|[[-> E2]|[[-> E2]|(M1 & M2 & M3 & E2)]]];
    rewrite E1 in H; try rewrite E2 in H; try reflexivity; try discriminate;
    try (apply (f_equal ends_in_th) in H; rewrite ends_in_th_append in H;
         discriminate).
  apply Number_toString_inj. eapply string_append_cancel_r. exact H.
Qed.

Lemma harmonic_name_injective_witness :
  (Z.abs 4 < 10 ^ 21)%Z
  /\ NodesCalculator.getHarmonicName 4 = Number_toString 4 ++ "th"
  /\ 4%Z = 4%Z.
Proof.
  split; [reflexivity|]. split; [reflexivity|].
  apply (harmonic_name_injective 4 4); reflexivity.
Defined.

End HarmonicName.

(* ================================================================== *)
(** * Which positions the lists hold                                  *)
(* ================================================================== *)

Section Membership.
Import JS NODES_CONFIG.

Lemma contains_app (x : Q) (l1 l2 : list Q) :
  contains x (l1 ++ l2) <-> contains x l1 \/ contains x l2.
Proof. unfold contains. apply InA_app_iff. Qed.

Lemma contains_cons (x y : Q) (l : list Q) :
  contains x (y :: l) <-> x == y \/ contains x l.
Proof. unfold contains. apply InA_cons. Qed.

Lemma contains_nil (x : Q) : contains x [] <-> False.
Proof. unfold contains. apply InA_nil. Qed.

Lemma contains_emit (cond : nat -> bool) (pos : nat -> Q) (ns : list nat) (x : Q) :
  contains x (flat_map (emit cond pos) ns)
  <-> exists n, In n ns /\ cond n = true /\ (x == pos n \/ x == - pos n).
Proof.
  induction ns as [|m ns IH]; simpl.
  - rewrite contains_nil. split; [intros [] | intros (n & [] & _)].
  - rewrite contains_app, IH. unfold emit at 1. split.
    + intros [H|(n & Hn & Hc & Hx)].
      * destruct (cond m) eqn:E; [|apply contains_nil in H; contradiction].
        exists m. split; [left; reflexivity|]. split; [exact E|].
        rewrite !contains_cons, contains_nil in H. tauto.
      * exists n. split; [right; exact Hn|]. split; assumption.
    + intros (n & [->|Hn] & Hc & Hx).
      * left. rewrite Hc, !contains_cons, contains_nil. tauto.
      * right. exists n. split; [exact Hn|]. split; assumption.
Qed.

Lemma odd_position_pos (k : Q) (n : nat) : 0 < k -> 0 < odd_position k n.
Proof.
  intros Hk. unfold odd_position. apply Qlt_shift_div_l; [exact Hk|].
  pose proof (num_nonneg n). pose proof Math_PI_pos.
  rewrite Qmult_0_l. apply Qmult_lt_0_compat; lra.
Qed.

Lemma even_position_pos (k : Q) (n : nat) : 0 < k -> (1 <= n)%nat -> 0 < even_position k n.
Proof.
  intros Hk Hn. unfold even_position. apply Qlt_shift_div_l; [exact Hk|].
  assert (H1 : num 1 <= num n) by (apply num_le; exact Hn).
  change (num 1) with 1 in H1. pose proof Math_PI_pos.
  rewrite Qmult_0_l. apply Qmult_lt_0_compat; lra.
Qed.

(** An odd multiple of a quarter wave is never a multiple of a half wave. *)
Lemma odd_even_apart (k : Q) (n m : nat) :
  0 < k -> ~ odd_position k n == even_position k m.
Proof.
  intros Hk E.
  rewrite (odd_position_w k Hk), (even_position_w k Hk), !Qhalf in E.
  pose proof (wavelength_pos k Hk) as Hw.
  assert (E' : (num n + 0.5) * (2 * Math_PI / k) == num m * (2 * Math_PI / k)) by lra.
  apply Qmult_inj_r in E'; [|intros Z; rewrite Z in Hw; discriminate].
  assert (E2 : inject_Z (2 * Z.of_nat n + 1) == inject_Z (2 * Z.of_nat m)).
  { rewrite inject_Z_plus, !inject_Z_mult. fold (num n) (num m).
    change (inject_Z 2) with 2. change (inject_Z 1) with 1. lra. }
  apply (proj1 (inject_Z_injective _ _)) in E2. lia.
Qed.

Variables (length k feedPosition : Q).

Let H := length / 2.

Lemma lib_currentNodes_contains (x : Q) :
  contains x (NodesCalculator._calculateCurrentNodes length k feedPosition)
  <-> x == - H \/ x == H
      \/ exists n, (n < MAX_HARMONICS)%nat
                   /\ odd_position k n < H - EDGE_BUFFER
                   /\ (x == odd_position k n \/ x == - odd_position k n).
Proof.
  rewrite lib_currentNodes_eq, sorted_set_contains, contains_app, contains_emit.
  rewrite !contains_cons, contains_nil. fold H.
  split.
  - intros [[E|[E|[]]]|(n & Hn & Hc & Hx)]; auto.
    right; right. exists n. apply in_seq in Hn. apply Qltb_lt in Hc.
    split; [lia|]. split; assumption.
  - intros [E|[E|(n & Hn & Hc & Hx)]]; auto.
    right. exists n. split; [apply in_seq; lia|]. split; [apply Qltb_lt; exact Hc|exact Hx].
Qed.

Lemma lib_voltageAntinodes_contains (x : Q) :
  contains x (NodesCalculator._calculateVoltageAntinodes length k feedPosition)
  <-> x == - H \/ x == H
      \/ exists n, (n < MAX_HARMONICS)%nat
                   /\ odd_position k n < H - EDGE_BUFFER
                   /\ EDGE_BUFFER < odd_position k n
                   /\ (x == odd_position k n \/ x == - odd_position k n).
Proof.
  rewrite lib_voltageAntinodes_eq, sorted_set_contains, contains_app, contains_emit.
  rewrite !contains_cons, contains_nil. fold H.
  split.
  - intros [[E|[E|[]]]|(n & Hn & Hc & Hx)]; auto.
    right; right. exists n. apply in_seq in Hn. apply andb_true_iff in Hc.
    destruct Hc as [Hc1 Hc2]. apply Qltb_lt in Hc1, Hc2.
    split; [lia|]. repeat split; assumption.
  - intros [E|[E|(n & Hn & Hc1 & Hc2 & Hx)]]; auto.
    right. exists n. split; [apply in_seq; lia|].
    split; [|exact Hx]. apply andb_true_iff. split; apply Qltb_lt; assumption.
Qed.

(** The position the feed determines in [_calculateCurrentAntinodes]. *)
Lemma lib_currentAntinodes_contains (x : Q) :
  contains x (NodesCalculator._calculateCurrentAntinodes length k feedPosition)
  <-> x == (if Qeq_bool feedPosition 0.5 then 0
            else if Qeq_bool feedPosition 0 || Qeq_bool feedPosition 1
                 then (if Qeq_bool feedPosition 0 then - H else H)
                 else (feedPosition - 0.5) * length)
      \/ exists n, (1 <= n < MAX_HARMONICS)%nat
                   /\ even_position k n < H - EDGE_BUFFER
                   /\ (x == even_position k n \/ x == - even_position k n).
Proof.
  rewrite lib_currentAntinodes_eq, sorted_set_contains, contains_app, contains_emit.
  rewrite !contains_cons, contains_nil. fold H.
  split.
  - intros [[E|[]]|(n & Hn & Hc & Hx)]; auto.
    right. exists n. apply in_seq in Hn. apply Qltb_lt in Hc.
    split; [unfold MAX_HARMONICS in *; lia|]. split; assumption.
  - intros [E|(n & Hn & Hc & Hx)]; auto.
    right. exists n. split; [apply in_seq; unfold MAX_HARMONICS in *; lia|].
    split; [apply Qltb_lt; exact Hc|exact Hx].
Qed.

Lemma lib_voltageNodes_contains (x : Q) :
  contains x (NodesCalculator._calculateVoltageNodes length k feedPosition)
  <-> (feedPosition == 0.5 /\ x == 0)
      \/ exists n, (1 <= n < MAX_HARMONICS)%nat
                   /\ even_position k n < H - EDGE_BUFFER
                   /\ (x == even_position k n \/ x == - even_position k n).
Proof.
  rewrite lib_voltageNodes_eq, sorted_set_contains, contains_app, contains_emit.
  fold H.
  assert (Hinit : contains x (if Qeq_bool feedPosition 0.5 then [0] else [])
                  <-> feedPosition == 0.5 /\ x == 0).
  { destruct (Qeq_bool feedPosition 0.5) eqn:E.
    - apply Qeq_bool_iff in E. rewrite contains_cons, contains_nil. tauto.
    - apply Qeq_bool_neq in E. rewrite contains_nil. tauto. }
  rewrite Hinit.
  split.
  - intros [E|(n & Hn & Hc & Hx)]; auto.
    right. exists n. apply in_seq in Hn. apply Qltb_lt in Hc.
    split; [unfold MAX_HARMONICS in *; lia|]. split; assumption.
  - intros [E|(n & Hn & Hc & Hx)]; auto.
    right. exists n. split; [apply in_seq; unfold MAX_HARMONICS in *; lia|].
    split; [apply Qltb_lt; exact Hc|exact Hx].
Qed.

End Membership.

Section LibraryLists.
Import JS NODES_CONFIG.

Variable model : AntennaModel.t.

Let length := AntennaModel.length model.
Let k := AntennaModel.waveNumber model.
Let feedPosition := AntennaModel.feedPosition model.
Let result := NodesCalculator.calculateNodesAndAntinodes model.

Lemma result_lists :
  nodes (current result) = NodesCalculator._calculateCurrentNodes length k feedPosition
  /\ antinodes (current result)
     = NodesCalculator._calculateCurrentAntinodes length k feedPosition
  /\ nodes (voltage result) = NodesCalculator._calculateVoltageNodes length k feedPosition
  /\ antinodes (voltage result)
     = NodesCalculator._calculateVoltageAntinodes length k feedPosition.
Proof. repeat split; reflexivity. Qed.

Lemma feed_position_on_wire :
  0 < length -> 0 <= feedPosition <= 1 ->
  - (length / 2)
  <= (if Qeq_bool feedPosition 0.5 then 0
      else if Qeq_bool feedPosition 0 || Qeq_bool feedPosition 1
           then (if Qeq_bool feedPosition 0 then - (length / 2) else length / 2)
           else (feedPosition - 0.5) * length)
  <= length / 2.
Proof.
  intros Hl [H0 H1].
  destruct (Qeq_bool feedPosition 0.5); [rewrite !Qhalf; split; lra|].
  destruct (Qeq_bool feedPosition 0 || Qeq_bool feedPosition 1).
  - destruct (Qeq_bool feedPosition 0); rewrite !Qhalf; split; lra.
  - assert (Ha : 0 <= feedPosition * length) by (apply Qmult_le_0_compat; lra).
    assert (Hb : 0 <= (1 - feedPosition) * length) by (apply Qmult_le_0_compat; lra).
    rewrite !Qhalf. split; lra.
Qed.

(** X5. For a model with positive length, positive wave number and a feed
    position in [0,1], every position in any of the four lists lies on the
    wire, between [-length/2] and [+length/2]. *)
Theorem positions_on_the_wire (x : Q) :
  0 < length -> 0 < k -> 0 <= feedPosition <= 1 ->
  contains x (nodes (current result)) \/ contains x (antinodes (current result))
  \/ contains x (nodes (voltage result)) \/ contains x (antinodes (voltage result)) ->
  - (length / 2) <= x <= length / 2.
Proof.
  intros Hl Hk Hf Hx.
  destruct result_lists as (E1 & E2 & E3 & E4). rewrite E1, E2, E3, E4 in Hx.
  assert (Hodd : forall n, odd_position k n < length / 2 - EDGE_BUFFER ->
                           x == odd_position k n \/ x == - odd_position k n ->
                           - (length / 2) <= x <= length / 2).
  { intros n Hc Hxn. pose proof (odd_position_pos k n Hk). unfold EDGE_BUFFER in Hc.
    destruct Hxn as [-> | ->]; split; lra. }
  assert (Heven : forall n, (1 <= n)%nat -> even_position k n < length / 2 - EDGE_BUFFER ->
                            x == even_position k n \/ x == - even_position k n ->
                            - (length / 2) <= x <= length / 2).
  { intros n Hn Hc Hxn. pose proof (even_position_pos k n Hk Hn).
    unfold EDGE_BUFFER in Hc. destruct Hxn as [-> | ->]; split; lra. }
  assert (Hends : forall y, y == - (length / 2) \/ y == length / 2 ->
                            - (length / 2) <= y <= length / 2).
  { intros y Hy. destruct Hy as [-> | ->]; rewrite !Qhalf; split; lra. }
  destruct Hx as [Hx|[Hx|[Hx|Hx]]].
  - apply lib_currentNodes_contains in Hx.
    destruct Hx as [Hx|[Hx|(n & _ & Hc & Hxn)]]; eauto.
  - apply lib_currentAntinodes_contains in Hx.
    destruct Hx as [Hx|(n & Hn & Hc & Hxn)].
    + rewrite Hx. apply feed_position_on_wire; assumption.
    + apply (Heven n); [lia | assumption | assumption].
  - apply lib_voltageNodes_contains in Hx.
    destruct Hx as [[_ Hx]|(n & Hn & Hc & Hxn)].
    + rewrite Hx, !Qhalf. split; lra.
    + apply (Heven n); [lia | assumption | assumption].
  - apply lib_voltageAntinodes_contains in Hx.
    destruct Hx as [Hx|[Hx|(n & _ & Hc & _ & Hxn)]]; eauto.
Qed.

Lemma contains_opp_opp (x : Q) (l : list Q) : contains (- - x) l -> contains x l.
Proof.
  unfold contains. intros H. eapply InA_eqA; [exact Q_Setoid | | exact H].
  apply Qopp_involutive.
Qed.

(** X6. The current nodes, the voltage nodes and the voltage antinodes are
    symmetric about the centre of the wire for every model: they hold [-x]
    whenever they hold [x].  So are the current antinodes of a centre-fed
    model. *)
Theorem lists_symmetric (x : Q) :
  (contains x (nodes (current result)) -> contains (- x) (nodes (current result)))
  /\ (contains x (nodes (voltage result)) -> contains (- x) (nodes (voltage result)))
  /\ (contains x (antinodes (voltage result))
      -> contains (- x) (antinodes (voltage result)))
  /\ (feedPosition == 0.5 ->
      contains x (antinodes (current result))
      -> contains (- x) (antinodes (current result))).
Proof.
  destruct result_lists as (E1 & E2 & E3 & E4). rewrite E1, E2, E3, E4.
  assert (Hflip : forall p, x == p \/ x == - p -> - x == p \/ - x == - p).
  { intros p [-> | ->]; [right; reflexivity | left; apply Qopp_involutive]. }
  repeat split.
  - rewrite !lib_currentNodes_contains.
    intros [Hx|[Hx|(n & Hn & Hc & Hxn)]].
    + right; left. rewrite Hx. apply Qopp_involutive.
    + left. rewrite Hx. reflexivity.
    + right; right. exists n. auto.
  - rewrite !lib_voltageNodes_contains.
    intros [[Hf Hx]|(n & Hn & Hc & Hxn)].
    + left. split; [exact Hf|]. rewrite Hx. reflexivity.
    + right. exists n. auto.
  - rewrite !lib_voltageAntinodes_contains.
    intros [Hx|[Hx|(n & Hn & Hc & Hb & Hxn)]].
    + right; left. rewrite Hx. apply Qopp_involutive.
    + left. rewrite Hx. reflexivity.
    + right; right. exists n. auto.
  - intros Hf. apply Qeq_bool_iff in Hf.
    rewrite !lib_currentAntinodes_contains, Hf.
    intros [Hx|(n & Hn & Hc & Hxn)].
    + left. rewrite Hx. reflexivity.
    + right. exists n. auto.
Qed.

(** X7. Every voltage antinode the calculator reports is also among its
    current nodes; for a centre-fed model the voltage-node list and the
    current-antinode list are the same list. *)
Theorem voltage_lists_mirror_current_lists :
  (forall x, contains x (antinodes (voltage result)) -> contains x (nodes (current result)))
  /\ (feedPosition == 0.5 -> nodes (voltage result) = antinodes (current result)).
Proof.
  destruct result_lists as (E1 & E2 & E3 & E4). rewrite E1, E2, E3, E4. split.
  - intros x. rewrite lib_voltageAntinodes_contains, lib_currentNodes_contains.
    intros [Hx|[Hx|(n & Hn & Hc & _ & Hxn)]]; auto.
    right; right. exists n. auto.
  - intros Hf. apply Qeq_bool_iff in Hf.
    rewrite lib_voltageNodes_eq, lib_currentAntinodes_eq, Hf. reflexivity.
Qed.

(** X8. For a centre-fed model with positive length and positive wave
    number no position is both a current node and a current antinode. *)
Theorem centre_fed_nodes_antinodes_disjoint (x : Q) :
  0 < length -> 0 < k -> feedPosition == 0.5 ->
  contains x (nodes (current result)) -> ~ contains x (antinodes (current result)).
Proof.
  intros Hl Hk Hf. unfold not.
  destruct result_lists as (E1 & E2 & _ & _). rewrite E1, E2.
  rewrite lib_currentNodes_contains, lib_currentAntinodes_contains.
  apply Qeq_bool_iff in Hf. rewrite Hf. cbv iota. unfold EDGE_BUFFER. rewrite !Qhalf.
  intros Hn Ha.
  assert (Hends : forall y, y == - (length * (1 # 2)) \/ y == length * (1 # 2) ->
            (y == 0 \/ exists m, (1 <= m < MAX_HARMONICS)%nat
                                 /\ even_position k m < length * (1 # 2) - 0.1
                                 /\ (y == even_position k m \/ y == - even_position k m))
            -> False).
  { intros y Hy [H0|(m & Hm & Hc & Hym)].
    - destruct Hy as [Hy|Hy]; rewrite H0 in Hy; lra.
    - pose proof (even_position_pos k m Hk (proj1 Hm)).
      destruct Hy as [Hy|Hy]; destruct Hym as [Hym|Hym]; rewrite Hym in Hy; lra. }
  destruct Hn as [Hx|[Hx|(n & _ & Hcn & Hxn)]]; [eapply Hends; eauto | eapply Hends; eauto |].
  pose proof (odd_position_pos k n Hk) as Hpos.
  destruct Ha as [H0|(m & Hm & Hcm & Hxm)].
  - destruct Hxn as [Hxn|Hxn]; rewrite H0 in Hxn; lra.
  - pose proof (even_position_pos k m Hk (proj1 Hm)) as Hposm.
    destruct Hxn as [Hxn|Hxn]; destruct Hxm as [Hxm|Hxm]; rewrite Hxm in Hxn.
    + apply (odd_even_apart k n m Hk). symmetry. exact Hxn.
    + lra.
    + lra.
    + apply (odd_even_apart k n m Hk). lra.
Qed.

(** X9. For an end-fed model the fed end of the wire is reported twice: as a
    current node and as a current antinode. *)
Theorem end_fed_end_is_node_and_antinode :
  (feedPosition == 0 ->
   contains (- (length / 2)) (nodes (current result))
   /\ contains (- (length / 2)) (antinodes (current result)))
  /\ (feedPosition == 1 ->
      contains (length / 2) (nodes (current result))
      /\ contains (length / 2) (antinodes (current result))).
Proof.
  destruct result_lists as (E1 & E2 & _ & _). rewrite E1, E2.
  split; intros Hf.
  - assert (F1 : Qeq_bool feedPosition 0.5 = false)
      by (apply Qeq_bool_neq_false; rewrite Hf; discriminate).
    apply Qeq_bool_iff in Hf.
    rewrite lib_currentNodes_contains, lib_currentAntinodes_contains, F1, Hf.
    split; left; reflexivity.
  - assert (F1 : Qeq_bool feedPosition 0.5 = false)
      by (apply Qeq_bool_neq_false; rewrite Hf; discriminate).
    assert (F0 : Qeq_bool feedPosition 0 = false)
      by (apply Qeq_bool_neq_false; rewrite Hf; discriminate).
    apply Qeq_bool_iff in Hf.
    rewrite lib_currentNodes_contains, lib_currentAntinodes_contains, F1, F0, Hf.
    split; [right; left; reflexivity | left; reflexivity].
Qed.

End LibraryLists.

Section LibraryListsMore.
Import JS NODES_CONFIG.

Lemma containsb_true (x : Q) (l : list Q) :
  existsb (Qeq_bool x) l = true -> contains x l.
Proof.
  intros H. apply existsb_exists in H. destruct H as (y & Hy & E).
  apply Qeq_bool_iff in E. apply InA_alt. exists y. split; assumption.
Qed.

Lemma sort_insert_length (x : Q) (l : list Q) :
  List.length (sort_insert x l) = S (List.length l).
Proof.
  induction l as [|y l IH]; simpl; [reflexivity|].
  destruct (Qle_bool x y); simpl; [reflexivity | now rewrite IH].
Qed.

Lemma sort_asc_length (l : list Q) : List.length (sort_asc l) = List.length l.
Proof.
  induction l as [|x l IH]; simpl; [reflexivity|].
  now rewrite sort_insert_length, IH.
Qed.

Lemma filter_length_le (f : Q -> bool) (l : list Q) :
  (List.length (filter f l) <= List.length l)%nat.
Proof.
  induction l as [|x l IH]; simpl; [lia|]. destruct (f x); simpl; lia.
Qed.

Lemma spread_Set_length_le (l : list Q) :
  (List.length (spread_Set l) <= List.length l)%nat.
Proof.
  induction l as [|x l IH]; simpl; [lia|].
  pose proof (filter_length_le (fun y => negb (Qeq_bool x y)) (spread_Set l)). lia.
Qed.

Lemma spread_Set_two_distinct (a b : Q) (l : list Q) :
  ~ a == b -> (2 <= List.length (spread_Set (a :: b :: l)))%nat.
Proof.
  intros Hab. simpl.
  assert (E : Qeq_bool a b = false) by (apply Qeq_bool_neq_false; exact Hab).
  rewrite E. simpl. lia.
Qed.

Lemma emit_length_le (cond : nat -> bool) (pos : nat -> Q) (ns : list nat) :
  (List.length (flat_map (emit cond pos) ns) <= 2 * List.length ns)%nat.
Proof.
  induction ns as [|n ns IH]; simpl; [lia|].
  rewrite length_app. unfold emit at 1. destruct (cond n); simpl; lia.
Qed.

Variable model : AntennaModel.t.

Let length := AntennaModel.length model.
Let k := AntennaModel.waveNumber model.
Let feedPosition := AntennaModel.feedPosition model.
Let result := NodesCalculator.calculateNodesAndAntinodes model.


(** X11. The loop bound [MAX_HARMONICS] caps the output: for a model with
    positive length there are between 2 and 18 current nodes, between 2 and
    18 voltage antinodes, between 1 and 15 current antinodes and at most 15
    voltage nodes. *)
Theorem list_sizes_bounded :
  0 < length ->
  (2 <= List.length (nodes (current result)) <= 18)%nat
  /\ (2 <= List.length (antinodes (voltage result)) <= 18)%nat
  /\ (1 <= List.length (antinodes (current result)) <= 15)%nat
  /\ (List.length (nodes (voltage result)) <= 15)%nat.
Proof.
  intros Hl.
  assert (Hends : ~ - (length / 2) == length / 2).
  { rewrite Qhalf. intros E. lra. }
  change (nodes (current result))
    with (NodesCalculator._calculateCurrentNodes length k feedPosition).
  change (antinodes (voltage result))
    with (NodesCalculator._calculateVoltageAntinodes length k feedPosition).
  change (antinodes (current result))
    with (NodesCalculator._calculateCurrentAntinodes length k feedPosition).
  change (nodes (voltage result))
    with (NodesCalculator._calculateVoltageNodes length k feedPosition).
  rewrite lib_currentNodes_eq, lib_voltageAntinodes_eq, lib_currentAntinodes_eq,
    lib_voltageNodes_eq, !sort_asc_length.
  repeat split.
  - apply spread_Set_two_distinct, Hends.
  - eapply Nat.le_trans; [apply spread_Set_length_le|].
    rewrite length_app.
    pose proof (emit_length_le
                  (fun n => Qltb (odd_position k n) (length / 2 - EDGE_BUFFER))
                  (odd_position k) (seq 0 (MAX_HARMONICS - 0))) as Hle.
    rewrite length_seq in Hle. simpl in *. lia.
  - apply spread_Set_two_distinct, Hends.
  - eapply Nat.le_trans; [apply spread_Set_length_le|].
    rewrite length_app.
    pose proof (emit_length_le
                  (fun n => Qltb (odd_position k n) (length / 2 - EDGE_BUFFER)
                            && Qltb EDGE_BUFFER (odd_position k n))
                  (odd_position k) (seq 0 (MAX_HARMONICS - 0))) as Hle.
    rewrite length_seq in Hle. simpl in *. lia.
  - simpl. lia.
  - eapply Nat.le_trans; [apply spread_Set_length_le|].
    rewrite length_app.
    pose proof (emit_length_le
                  (fun n => Qltb (even_position k n) (length / 2 - EDGE_BUFFER))
                  (even_position k) (seq 1 (MAX_HARMONICS - 1))) as Hle.
    rewrite length_seq in Hle. simpl in *. lia.
  - eapply Nat.le_trans; [apply spread_Set_length_le|].
    rewrite length_app.
    pose proof (emit_length_le
                  (fun n => Qltb (even_position k n) (length / 2 - EDGE_BUFFER))
                  (even_position k) (seq 1 (MAX_HARMONICS - 1))) as Hle.
    rewrite length_seq in Hle.
    destruct (Qeq_bool feedPosition 0.5); simpl in *; lia.
Qed.

End LibraryListsMore.

Section LibraryListsWitnesses.
Import JS.

Lemma positions_on_the_wire_witness :
  (0 < 7 /\ 0 < Math_PI /\ 0 <= 0.5 <= 1)
  /\ contains 2.5 (nodes (current (NodesCalculator.calculateNodesAndAntinodes seven)))
  /\ - (7 / 2) <= 2.5 <= 7 / 2.
Proof.
  assert (Hin : contains 2.5
                  (nodes (current (NodesCalculator.calculateNodesAndAntinodes seven))))
    by (apply containsb_true; vm_compute; reflexivity).
  split; [repeat split; discriminate|]. split; [exact Hin|].
  apply (positions_on_the_wire seven 2.5);
    [reflexivity | reflexivity | split; discriminate | left; exact Hin].
Defined.

Lemma lists_symmetric_witness :
  contains 2.5 (nodes (current (NodesCalculator.calculateNodesAndAntinodes seven)))
  /\ contains (- 2.5) (nodes (current (NodesCalculator.calculateNodesAndAntinodes seven))).
Proof.
  assert (Hin : contains 2.5
                  (nodes (current (NodesCalculator.calculateNodesAndAntinodes seven))))
    by (apply containsb_true; vm_compute; reflexivity).
  split; [exact Hin|].
  apply (proj1 (lists_symmetric seven 2.5)). exact Hin.
Defined.

Lemma voltage_lists_mirror_current_lists_witness :
  AntennaModel.feedPosition seven == 0.5
  /\ nodes (voltage (NodesCalculator.calculateNodesAndAntinodes seven))
     = antinodes (current (NodesCalculator.calculateNodesAndAntinodes seven)).
Proof.
  split; [reflexivity|].
  apply (proj2 (voltage_lists_mirror_current_lists seven)). reflexivity.
Defined.

Lemma centre_fed_nodes_antinodes_disjoint_witness :
  (0 < 7 /\ 0 < Math_PI /\ AntennaModel.feedPosition seven == 0.5)
  /\ contains 2.5 (nodes (current (NodesCalculator.calculateNodesAndAntinodes seven)))
  /\ ~ contains 2.5 (antinodes (current (NodesCalculator.calculateNodesAndAntinodes seven))).
Proof.
  assert (Hin : contains 2.5
                  (nodes (current (NodesCalculator.calculateNodesAndAntinodes seven))))
    by (apply containsb_true; vm_compute; reflexivity).
  split; [repeat split; reflexivity|]. split; [exact Hin|].
  apply (centre_fed_nodes_antinodes_disjoint seven 2.5);
    [reflexivity | reflexivity | reflexivity | exact Hin].
Defined.

Lemma end_fed_end_is_node_and_antinode_witness :
  let endFed := AntennaModel.mk 7 149.9 0 Math_PI 3.5 2 (mkImpedance 2500 0) in
  AntennaModel.feedPosition endFed == 0
  /\ contains (- (7 / 2)) (nodes (current (NodesCalculator.calculateNodesAndAntinodes endFed)))
  /\ contains (- (7 / 2))
              (antinodes (current (NodesCalculator.calculateNodesAndAntinodes endFed))).
Proof.
  cbv zeta. split; [reflexivity|].
  apply (proj1 (end_fed_end_is_node_and_antinode
                  (AntennaModel.mk 7 149.9 0 Math_PI 3.5 2 (mkImpedance 2500 0)))).
  reflexivity.
Defined.

Lemma list_sizes_bounded_witness :
  0 < 7
  /\ List.length (nodes (current (NodesCalculator.calculateNodesAndAntinodes seven))) = 8%nat
  /\ (2 <= List.length (nodes (current (NodesCalculator.calculateNodesAndAntinodes seven)))
      <= 18)%nat.
Proof.
  split; [reflexivity|]. split; [vm_compute; reflexivity|].
  apply (list_sizes_bounded seven). reflexivity.
Defined.

End LibraryListsWitnesses.

(* ================================================================== *)
(** * Further properties of the calculator in [antenna-visualization.tsx] *)
(* ================================================================== *)

Section VisualizationLists.
Import JS.

Variable model : AntennaModel.t.

Let length := AntennaModel.length model.
Let k := AntennaModel.waveNumber model.
Let result := Visualization.calculateNodesAndAntinodes model.

(** X12. Each of the four lists of the visualization's calculator is
    strictly increasing, and whatever the feed position of the model the
    current nodes and voltage antinodes hold both wire ends while the current
    antinodes and the voltage nodes hold the centre 0. *)
Theorem visualization_lists_sorted_with_fixed_points :
  (strictly_increasing (nodes (current result))
   /\ strictly_increasing (antinodes (current result))
   /\ strictly_increasing (nodes (voltage result))
   /\ strictly_increasing (antinodes (voltage result)))
  /\ (contains (- (length / 2)) (nodes (current result))
      /\ contains (length / 2) (nodes (current result)))
  /\ (contains (- (length / 2)) (antinodes (voltage result))
      /\ contains (length / 2) (antinodes (voltage result)))
  /\ contains 0 (antinodes (current result))
  /\ contains 0 (nodes (voltage result)).
Proof.
  split; [repeat split; apply sorted_set_strict|].
  change (nodes (current result)) with (Visualization._calculateCurrentNodes length k).
  change (antinodes (voltage result))
    with (Visualization._calculateVoltageAntinodes length k).
  change (antinodes (current result))
    with (Visualization._calculateCurrentAntinodes length k).
  change (nodes (voltage result)) with (Visualization._calculateVoltageNodes length k).
  rewrite viz_currentNodes_eq, viz_voltageAntinodes_eq, viz_currentAntinodes_eq,
    viz_voltageNodes_eq, !sorted_set_contains, !contains_app, !contains_cons.
  repeat split; left; (left; reflexivity) || (right; left; reflexivity).
Qed.

Lemma viz_edgeBuffer_pos : 0 < k -> 0 < viz_edgeBuffer k.
Proof.
  intros Hk. pose proof (wavelength_pos k Hk) as Hw.
  unfold viz_edgeBuffer, Math_min. apply Q.min_glb_lt; lra.
Qed.

(** X13. The loop bound ceil(4 * electricalLength) of the visualization's
    calculator never leaves a position out.  For a positive wave number its
    current nodes are exactly the wire ends and all positions
    +-(n + 0.5) * PI / k below length/2 - edgeBuffer, and its current
    antinodes are exactly 0 and all positions +-n * PI / k, n >= 1, below
    length/2 - edgeBuffer, for every natural n, where
    edgeBuffer = min(0.1, 0.05 * 2 * PI / k). *)
Theorem visualization_loop_bound_suffices (x : Q) :
  0 < k ->
  (contains x (nodes (current result))
   <-> x == - (length / 2) \/ x == length / 2
       \/ exists n : nat, odd_position k n < length / 2 - viz_edgeBuffer k
                          /\ (x == odd_position k n \/ x == - odd_position k n))
  /\ (contains x (antinodes (current result))
      <-> x == 0
          \/ exists n : nat, (1 <= n)%nat
                             /\ even_position k n < length / 2 - viz_edgeBuffer k
                             /\ (x == even_position k n \/ x == - even_position k n)).
Proof.
  intros Hk. pose proof (viz_edgeBuffer_pos Hk) as Hb.
  change (nodes (current result)) with (Visualization._calculateCurrentNodes length k).
  change (antinodes (current result))
    with (Visualization._calculateCurrentAntinodes length k).
  rewrite viz_currentNodes_eq, viz_currentAntinodes_eq, !sorted_set_contains,
    !contains_app, !contains_emit, !contains_cons, !contains_nil.
  split; split.
  - intros [[E|[E|[]]]|(n & Hn & Hc & Hx)]; auto.
    right; right. exists n. apply Qltb_lt in Hc. split; assumption.
  - intros [E|[E|(n & Hc & Hx)]]; auto.
    right. exists n. split; [|split; [apply Qltb_lt; exact Hc | exact Hx]].
    apply in_seq.
    assert (Hlt : (n < viz_bound length k)%nat).
    { apply (below_viz_bound length k Hk n (num n + 0.5)); [lra|].
      rewrite <- (odd_position_w k Hk). lra. }
    lia.
  - intros [[E|[]]|(n & Hn & Hc & Hx)]; auto.
    right. exists n. apply in_seq in Hn. apply Qltb_lt in Hc.
    split; [lia|]. split; assumption.
  - intros [E|(n & Hn & Hc & Hx)]; auto.
    right. exists n. split; [|split; [apply Qltb_lt; exact Hc | exact Hx]].
    apply in_seq.
    assert (Hlt : (n < viz_bound length k)%nat).
    { apply (below_viz_bound length k Hk n (num n)); [apply Qle_refl|].
      rewrite <- (even_position_w k Hk). lra. }
    lia.
Qed.

End VisualizationLists.

Lemma visualization_loop_bound_suffices_witness :
  0 < AntennaModel.waveNumber seven
  /\ contains 2.5 (nodes (current (Visualization.calculateNodesAndAntinodes seven)))
  /\ exists n : nat,
       odd_position JS.Math_PI n < 7 / 2 - viz_edgeBuffer JS.Math_PI
       /\ (2.5 == odd_position JS.Math_PI n \/ 2.5 == - odd_position JS.Math_PI n).
Proof.
  assert (Hin : contains 2.5
                  (nodes (current (Visualization.calculateNodesAndAntinodes seven))))
    by (apply containsb_true; vm_compute; reflexivity).
  split; [reflexivity|]. split; [exact Hin|].
  destruct (proj1 (proj1 (visualization_loop_bound_suffices seven 2.5 eq_refl)) Hin)
    as [E|[E|Hex]]; [discriminate E | discriminate E | exact Hex].
Defined.

(* ================================================================== *)
(** * The performance panel                                           *)
(* ================================================================== *)

Section PerformanceCounts.
Import JS.

Lemma spread_Set_nonempty (x : Q) (l : list Q) :
  (1 <= List.length (spread_Set (x :: l)))%nat.
Proof. simpl. lia. Qed.

Variable antennaData : AntennaData.t.

(** X14. With an antenna model, the four counts of the performance panel
    are the lengths of the four lists the visualization's calculator returns
    for the same model. *)
Theorem performance_counts_are_visualization_list_lengths (model : AntennaModel.t) :
  let counts := AntennaPerformance.calculateNodesAndAntinodes (Some model) antennaData in
  let lists := Visualization.calculateNodesAndAntinodes model in
  currentNodes counts = Z.of_nat (List.length (nodes (current lists)))
  /\ currentAntinodes counts = Z.of_nat (List.length (antinodes (current lists)))
  /\ voltageNodes counts = Z.of_nat (List.length (nodes (voltage lists)))
  /\ voltageAntinodes counts = Z.of_nat (List.length (antinodes (voltage lists))).
Proof.
  cbv zeta.
  unfold Visualization.calculateNodesAndAntinodes, Visualization._calculateCurrentNodes,
    Visualization._calculateCurrentAntinodes, Visualization._calculateVoltageNodes,
    Visualization._calculateVoltageAntinodes.
  cbv zeta. cbn [nodes antinodes current voltage].
  rewrite !sort_asc_length. repeat split; reflexivity.
Qed.

(** X15. The performance panel never shows a zero count: with or without an
    antenna model each of the four counts is at least 1. *)
Theorem performance_counts_positive (antennaModel : option AntennaModel.t) :
  let counts := AntennaPerformance.calculateNodesAndAntinodes antennaModel antennaData in
  (1 <= currentNodes counts /\ 1 <= currentAntinodes counts
   /\ 1 <= voltageNodes counts /\ 1 <= voltageAntinodes counts)%Z.
Proof.
  destruct antennaModel as [model|].
  - cbv zeta. unfold AntennaPerformance.calculateNodesAndAntinodes. cbv zeta.
    cbn [currentNodes currentAntinodes voltageNodes voltageAntinodes].
    rewrite !for_range_emit. unfold push.
    repeat split; apply (inj_le 1), spread_Set_nonempty.
  - cbv zeta. simpl. repeat split; lia.
Qed.

End PerformanceCounts.

Section PerformanceFigures.
Import JS.

Lemma clamp_1_10 (v : Q) : 1 <= Math_min 10 (Math_max 1 v) <= 10.
Proof.
  unfold Math_min, Math_max. split.
  - apply Q.min_glb; [discriminate | apply Q.le_max_l].
  - apply Q.le_min_l.
Qed.

Lemma clamp_1_10_is_1 (v : Q) : Math_min 10 (Math_max 1 v) == 1 <-> v <= 1.
Proof.
  unfold Math_min, Math_max.
  destruct (Q.max_spec 1 v) as [[H1 E1]|[H1 E1]]; rewrite E1.
  - destruct (Q.min_spec 10 v) as [[H2 E2]|[H2 E2]]; rewrite E2; split; intros H; lra.
  - rewrite Q.min_r by discriminate. split; intros; [exact H1 | reflexivity].
Qed.

(** X16. Without a measured SWR the fallback of [finalSWR] always lies in
    [1, 10]; for a centre-fed dipole (feed point 50) it reads exactly 1
    precisely when the element length deviates from 0.5 by at most 1/45 of
    0.5. *)
Theorem fallback_swr_bounded (antennaData : AntennaData.t) :
  1 <= AntennaPerformance.finalSWR None antennaData <= 10
  /\ (AntennaData.type antennaData = "dipole"%string ->
      AntennaData.feedPoint antennaData == 50 ->
      (AntennaPerformance.finalSWR None antennaData == 1
       <-> Qabs (1 - AntennaData.elementLength antennaData / 0.5) <= 1 # 45)).
Proof.
  split.
  - unfold AntennaPerformance.finalSWR. cbv zeta. apply clamp_1_10.
  - intros Ht Hf. unfold AntennaPerformance.finalSWR. cbv zeta.
    apply Qeq_bool_iff in Hf. rewrite Ht, Hf. cbn [String.eqb Ascii.eqb Bool.eqb andb orb].
    rewrite clamp_1_10_is_1. unfold Math_abs.
    generalize (Qabs (1 - AntennaData.elementLength antennaData / 0.5)). intros d.
    split; intros H; lra.
Qed.

Lemma fallback_swr_bounded_witness :
  let data := AntennaData.mk "dipole" 14.2 1 0.505 0.25 50 "copper" 2.0 "1:1" in
  (AntennaData.type data = "dipole"%string /\ AntennaData.feedPoint data == 50)
  /\ Qabs (1 - 0.505 / 0.5) <= 1 # 45
  /\ AntennaPerformance.finalSWR None data == 1.
Proof.
  cbv zeta. split; [split; reflexivity|]. split; [discriminate|].
  apply (proj2 (fallback_swr_bounded
                  (AntennaData.mk "dipole" 14.2 1 0.505 0.25 50 "copper" 2.0 "1:1")));
    [reflexivity | reflexivity | discriminate].
Defined.

Lemma min_of_le (first : Q) (rest : list Q) :
  AntennaPerformance.min_of first rest <= first
  /\ forall g, In g rest -> AntennaPerformance.min_of first rest <= g.
Proof.
  unfold AntennaPerformance.min_of. revert first.
  induction rest as [|y rest IH]; intros first; simpl.
  - split; [apply Qle_refl | intros g []].
  - destruct (IH (Math_min first y)) as [H1 H2]. unfold Math_min in *. split.
    + eapply Qle_trans; [exact H1 | apply Q.le_min_l].
    + intros g [<-|Hg]; [|apply H2, Hg].
      eapply Qle_trans; [exact H1 | apply Q.le_min_r].
Qed.

Lemma max_of_ge (first : Q) (rest : list Q) :
  first <= AntennaPerformance.max_of first rest
  /\ forall g, In g rest -> g <= AntennaPerformance.max_of first rest.
Proof.
  unfold AntennaPerformance.max_of. revert first.
  induction rest as [|y rest IH]; intros first; simpl.
  - split; [apply Qle_refl | intros g []].
  - destruct (IH (Math_max first y)) as [H1 H2]. unfold Math_max in *. split.
    + eapply Qle_trans; [apply Q.le_max_l | exact H1].
    + intros g [<-|Hg]; [|apply H2, Hg].
      eapply Qle_trans; [apply Q.le_max_r | exact H1].
Qed.

(** The padding [Math.abs(g) * 0.1 || 1] is positive. *)
Lemma padding_pos (g : Q) : 0 < number_or (Some (Math_abs g * 0.1)) 1.
Proof.
  unfold number_or, Math_abs.
  pose proof (Qabs_nonneg g) as Hn.
  destruct (Qeq_bool (Qabs g * 0.1) 0) eqn:E; [reflexivity|].
  apply Qeq_bool_neq in E.
  destruct (Qle_lt_or_eq 0 (Qabs g * 0.1)) as [Hlt|Heq]; [lra | exact Hlt |].
  exfalso. apply E. symmetry. exact Heq.
Qed.

(** X17. The radar chart domain [finalRadarDomain] strictly encloses every
    plotted gain and spans at least 2 units. *)
Theorem radar_domain_encloses_gains (gains : list Q) :
  let '(lower, upper) := AntennaPerformance.finalRadarDomain gains in
  (lower + 2 <= upper)%Z
  /\ forall g, In g gains -> inject_Z lower < g < inject_Z upper.
Proof.
  unfold AntennaPerformance.finalRadarDomain. cbv zeta. split; [lia|].
  intros g Hg. destruct gains as [|first rest]; [destruct Hg|].
  assert (Hmin : AntennaPerformance.min_of first rest <= g).
  { destruct (min_of_le first rest) as [H1 H2]. destruct Hg as [<-|Hg]; auto. }
  assert (Hmax : g <= AntennaPerformance.max_of first rest).
  { destruct (max_of_ge first rest) as [H1 H2]. destruct Hg as [<-|Hg]; auto. }
  pose proof (padding_pos (AntennaPerformance.min_of first rest)) as Hp1.
  pose proof (padding_pos (AntennaPerformance.max_of first rest)) as Hp2.
  unfold Math_floor, Math_ceil. split.
  - eapply Qle_lt_trans; [apply Qfloor_le|]. lra.
  - eapply Qlt_le_trans; [|rewrite <- Zle_Qle; apply Z.le_max_r].
    eapply Qlt_le_trans; [|apply Qle_ceiling]. lra.
Qed.

End PerformanceFigures.

Lemma radar_domain_encloses_gains_witness :
  In 2.15 [2.15; 0; -1]
  /\ AntennaPerformance.finalRadarDomain [2.15; 0; -1] = (-2, 3)%Z
  /\ inject_Z (-2) < 2.15 < inject_Z 3.
Proof.
  split; [left; reflexivity|]. split; [reflexivity|].
  pose proof (radar_domain_encloses_gains [2.15; 0; -1]) as H.
  change (AntennaPerformance.finalRadarDomain [2.15; 0; -1]) with (-2, 3)%Z in H.
  cbv beta iota in H. destruct H as [_ H]. apply H. left. reflexivity.
Defined.

(* ================================================================== *)
(** * The page component                                              *)
(* ================================================================== *)

Section PageProperties.
Import JS.
Open Scope string_scope.

(** X18. The matching networks the page can select are exactly the entries
    of [MATCHING_NETWORKS]: whenever [getMatchingNetwork] returns a key, the
    table has an entry under it whose ratio r spells the selection "r:1";
    and every entry of the table is selected by the text "r:1" of its
    ratio.  Any other selection gives [null]. *)
Theorem matching_networks_selectable :
  (forall balunRatio key,
     Page.getMatchingNetwork balunRatio = Some key ->
     exists network, MATCHING_NETWORKS.get key = Some network
                     /\ balunRatio = Number_toString (ratio network) ++ ":1")
  /\ (forall key network,
        MATCHING_NETWORKS.get key = Some network ->
        Page.getMatchingNetwork (Number_toString (ratio network) ++ ":1") = Some key)
  /\ (forall balunRatio,
        balunRatio <> "1:1" -> balunRatio <> "4:1" -> balunRatio <> "9:1" ->
        balunRatio <> "49:1" -> Page.getMatchingNetwork balunRatio = None).
Proof.
  split; [|split].
  - intros balunRatio key. unfold Page.getMatchingNetwork.
    destruct (String.eqb_spec balunRatio "1:1") as [->|_];
      [intros E; injection E as <-; eexists; split; reflexivity|].
    destruct (String.eqb_spec balunRatio "4:1") as [->|_];
      [intros E; injection E as <-; eexists; split; reflexivity|].
    destruct (String.eqb_spec balunRatio "9:1") as [->|_];
      [intros E; injection E as <-; eexists; split; reflexivity|].
    destruct (String.eqb_spec balunRatio "49:1") as [->|_];
      [intros E; injection E as <-; eexists; split; reflexivity|].
    discriminate.
  - intros key network. unfold MATCHING_NETWORKS.get, MATCHING_NETWORKS.entries.
    cbn [MATCHING_NETWORKS.lookup].
    destruct (String.eqb_spec "use1to1Balun" key) as [<-|_];
      [intros E; injection E as <-; reflexivity|].
    destruct (String.eqb_spec "use4to1Balun" key) as [<-|_];
      [intros E; injection E as <-; reflexivity|].
    destruct (String.eqb_spec "use9to1UnUn" key) as [<-|_];
      [intros E; injection E as <-; reflexivity|].
    destruct (String.eqb_spec "use49to1UnUn" key) as [<-|_];
      [intros E; injection E as <-; reflexivity|].
    discriminate.
  - intros balunRatio H1 H4 H9 H49. unfold Page.getMatchingNetwork.
    apply String.eqb_neq in H1, H4, H9, H49. rewrite H1, H4, H9, H49. reflexivity.
Qed.

Lemma matching_networks_selectable_witness :
  Page.getMatchingNetwork "49:1" = Some "use49to1UnUn"
  /\ exists network, MATCHING_NETWORKS.get "use49to1UnUn" = Some network
                     /\ "49:1" = Number_toString (ratio network) ++ ":1".
Proof.
  split; [reflexivity|].
  apply (proj1 matching_networks_selectable "49:1" "use49to1UnUn"). reflexivity.
Defined.

Lemma number_or_nonzero (x : option Q) (fallback : Q) :
  ~ fallback == 0 -> ~ number_or x fallback == 0.
Proof.
  intros Hf. unfold number_or. destruct x as [v|]; [|exact Hf].
  destruct (Qeq_bool v 0) eqn:E; [exact Hf|]. apply Qeq_bool_neq. exact E.
Qed.

(** X19. After the form watcher has run, no numeric field of the antenna
    data is 0: a reported 0 (or a missing value) is replaced by the default.
    In particular a feed point of 0 becomes 50, so the model it is copied
    into is centre-fed and never fed at position 0; a non-zero feed point is
    kept as it is. *)
Theorem watcher_replaces_zero (values : FormValues) :
  let data := Page.watchValues values in
  (~ AntennaData.frequency data == 0 /\ AntennaData.elements data <> 0%Z
   /\ ~ AntennaData.elementLength data == 0 /\ ~ AntennaData.elementSpacing data == 0
   /\ ~ AntennaData.feedPoint data == 0 /\ ~ AntennaData.wireDiameter data == 0)
  /\ ~ modelFeedPosition (Page.updateModel data) == 0
  /\ (forall v, formFeedPoint values = Some v -> v == 0 ->
        AntennaData.feedPoint data = 50
        /\ modelFeedPosition (Page.updateModel data) == 0.5)
  /\ (forall v, formFeedPoint values = Some v -> ~ v == 0 ->
        AntennaData.feedPoint data = v).
Proof.
  cbv zeta. unfold Page.watchValues, Page.updateModel.
  cbn [AntennaData.frequency AntennaData.elements AntennaData.elementLength
       AntennaData.elementSpacing AntennaData.feedPoint AntennaData.wireDiameter
       modelFeedPosition].
  assert (Hfeed : ~ number_or (formFeedPoint values) 50 == 0)
    by (apply number_or_nonzero; discriminate).
  split; [|split; [|split]].
  - repeat split; try (apply number_or_nonzero; discriminate); try exact Hfeed.
    unfold integer_or. destruct (formElements values) as [n|]; [|discriminate].
    destruct (Z.eqb_spec n 0); [discriminate | assumption].
  - intros E. apply Hfeed.
    assert (E' : number_or (formFeedPoint values) 50
                 == number_or (formFeedPoint values) 50 / 100 * 100) by field.
    rewrite E', E. reflexivity.
  - intros v Hv Hz. rewrite Hv. unfold number_or.
    apply Qeq_bool_iff in Hz. rewrite Hz. split; reflexivity.
  - intros v Hv Hz. rewrite Hv. unfold number_or.
    apply Qeq_bool_neq_false in Hz. rewrite Hz. reflexivity.
Qed.

Lemma watcher_replaces_zero_witness :
  let values := mkFormValues (Some "dipole") (Some 14.2) (Some 1%Z) (Some 10.6)
                             (Some 0.25) (Some 0) (Some "copper") (Some 2.0)
                             (Some "49:1") in
  formFeedPoint values = Some 0 /\ 0 == 0
  /\ AntennaData.feedPoint (Page.watchValues values) = 50
  /\ modelFeedPosition (Page.updateModel (Page.watchValues values)) == 0.5.
Proof.
  cbv zeta. split; [reflexivity|]. split; [reflexivity|].
  apply (proj1 (proj2 (proj2 (watcher_replaces_zero
           (mkFormValues (Some "dipole") (Some 14.2) (Some 1%Z) (Some 10.6)
                         (Some 0.25) (Some 0) (Some "copper") (Some 2.0)
                         (Some "49:1"))))) 0); reflexivity.
Defined.

Close Scope string_scope.

Lemma animationStep_mod (t : Z) :
  (0 <= t)%Z -> Page.animationStep t = ((t + 1) mod 360)%Z.
Proof.
  intros Ht. unfold Page.animationStep. cbv zeta. apply Z.rem_mod_nonneg; lia.
Qed.

Lemma animation_iter (n : nat) (t : Z) :
  (0 <= t < 360)%Z ->
  Nat.iter n Page.animationStep t = ((t + Z.of_nat n) mod 360)%Z.
Proof.
  intros Ht. induction n as [|n IH].
  - simpl. rewrite Z.add_0_r, Z.mod_small; lia.
  - rewrite Nat.iter_succ, IH, animationStep_mod
      by (apply Z.mod_pos_bound; lia).
    rewrite Z.add_mod_idemp_l by lia. f_equal. lia.
Qed.

(** X20. The animation time stays a whole number of degrees in [0, 360):
    from such a time every step of the animation interval gives such a time
    again, the step from 359 wraps to 0, and 360 steps bring the time back to
    where it was. *)
Theorem animation_time_cycles (t : Z) :
  (0 <= t < 360)%Z ->
  (0 <= Page.animationStep t < 360)%Z
  /\ Page.animationStep 359 = Page.resetAnimation
  /\ Nat.iter 360 Page.animationStep t = t.
Proof.
  intros Ht. split; [|split].
  - rewrite animationStep_mod by lia. apply Z.mod_pos_bound. lia.
  - reflexivity.
  - rewrite animation_iter by exact Ht.
    replace (t + Z.of_nat 360)%Z with (t + 1 * 360)%Z by reflexivity.
    rewrite Z.mod_add by lia. apply Z.mod_small. exact Ht.
Qed.

Lemma animation_time_cycles_witness :
  (0 <= 200 < 360)%Z
  /\ Page.animationStep 200 = 201%Z
  /\ Nat.iter 360 Page.animationStep 200%Z = 200%Z.
Proof.
  split; [lia|]. split; [reflexivity|].
  apply (animation_time_cycles 200%Z). lia.
Defined.

End PageProperties.

(* ================================================================== *)
(** * The earlier page component                                      *)
(* ================================================================== *)

Section EarlierPageProperties.
Import JS.

Lemma Qfloor_add_Z (x : Q) (n : Z) : Qfloor (inject_Z n + x) = (n + Qfloor x)%Z.
Proof.
  pose proof (Qfloor_le (inject_Z n + x)) as H1.
  pose proof (Qlt_floor (inject_Z n + x)) as H2.
  pose proof (Qfloor_le x) as H3.
  pose proof (Qlt_floor x) as H4.
  assert (Ha : inject_Z (Qfloor (inject_Z n + x)) < inject_Z (n + Qfloor x + 1)).
  { rewrite !inject_Z_plus in *. lra. }
  assert (Hb : inject_Z (n + Qfloor x) < inject_Z (Qfloor (inject_Z n + x) + 1)).
  { rewrite !inject_Z_plus in *. lra. }
  rewrite <- Zlt_Qlt in Ha, Hb. lia.
Qed.

Lemma Math_round_add_Z (x : Q) (n : Z) : Math_round (inject_Z n + x) = (n + Math_round x)%Z.
Proof.
  unfold Math_round. rewrite <- Qfloor_add_Z. apply Qfloor_comp. ring.
Qed.

Lemma Math_round_mono (x y : Q) : x <= y -> (Math_round x <= Math_round y)%Z.
Proof.
  intros H. unfold Math_round. apply Qfloor_resp_le. lra.
Qed.

Variable Math_log10 : Q -> Q.

(** X21. The earlier page's [calculateFeedImpedance] gives, for a dipole,
    73 + round(40 * |feedPoint - 50|) ohms: 73 at the centre, the same value
    at equal distances on either side of it, and between 73 and 2073 for a
    feed point between 0 and 100. *)
Theorem dipole_feed_impedance (data : AntennaData.t) :
  AntennaData.type data = "dipole"%string ->
  EarlierPage.calculateFeedImpedance Math_log10 data
  = (73 + Math_round (40 * Qabs (AntennaData.feedPoint data - 50)))%Z
  /\ (0 <= AntennaData.feedPoint data <= 100 ->
      (73 <= EarlierPage.calculateFeedImpedance Math_log10 data <= 2073)%Z).
Proof.
  intros Ht.
  assert (Hclosed : EarlierPage.calculateFeedImpedance Math_log10 data
                    = (73 + Math_round (40 * Qabs (AntennaData.feedPoint data - 50)))%Z).
  { unfold EarlierPage.calculateFeedImpedance. cbv zeta. rewrite Ht.
    cbn [String.eqb Ascii.eqb Bool.eqb].
    set (fp := AntennaData.feedPoint data).
    rewrite <- Math_round_add_Z.
    destruct (Qeq_bool (fp / 100) 0.5) eqn:E.
    - apply Qeq_bool_iff in E.
      assert (E50 : fp - 50 == 0).
      { assert (Hfp : fp == fp / 100 * 100) by field. rewrite Hfp, E. reflexivity. }
      apply Qfloor_comp. rewrite E50. reflexivity.
    - apply Qfloor_comp. unfold Math_abs.
      assert (Hr : fp / 100 - 0.5 == (fp - 50) * (1 # 100)) by field.
      rewrite Hr, Qabs_Qmult.
      change (Qabs (1 # 100)) with (1 # 100). change (inject_Z 73) with 73. ring. }
  split; [exact Hclosed|].
  intros [H0 H100]. rewrite Hclosed.
  set (d := Qabs (AntennaData.feedPoint data - 50)).
  assert (Hd : 0 <= d <= 50).
  { split; [apply Qabs_nonneg|].
    apply (proj2 (Qabs_Qle_condition _ _)). split; lra. }
  pose proof (Math_round_mono 0 (40 * d)) as Hlo.
  pose proof (Math_round_mono (40 * d) 2000) as Hhi.
  change (Math_round 0) with 0%Z in Hlo. change (Math_round 2000) with 2000%Z in Hhi.
  assert (0 <= 40 * d) by lra. assert (40 * d <= 2000) by lra.
  split; [apply Hlo in H | apply Hhi in H1]; lia.
Qed.

(** X22. In the earlier page's [calculateResonantFrequency] the speed of
    light cancels: for a positive frequency the result is 1.9 times the
    frequency for a dipole, whatever its length, and 0.95 times the frequency
    divided by the element length for every other type with a non-zero
    element length. *)
Theorem resonant_frequency_closed_form (data : AntennaData.t) :
  0 < AntennaData.frequency data ->
  (AntennaData.type data = "dipole"%string ->
   EarlierPage.calculateResonantFrequency data == 1.9 * AntennaData.frequency data)
  /\ (AntennaData.type data <> "dipole"%string ->
      ~ AntennaData.elementLength data == 0 ->
      EarlierPage.calculateResonantFrequency data
      == 0.95 * AntennaData.frequency data / AntennaData.elementLength data).
Proof.
  intros Hf.
  assert (Hf0 : ~ AntennaData.frequency data == 0) by (intros E; rewrite E in Hf; discriminate).
  unfold EarlierPage.calculateResonantFrequency, EarlierPage.wavelength. cbv zeta.
  split.
  - intros Ht. rewrite Ht. cbn [String.eqb Ascii.eqb Bool.eqb]. field. exact Hf0.
  - intros Ht Hl. apply String.eqb_neq in Ht. rewrite Ht. field. split; assumption.
Qed.

Lemma resonant_frequency_closed_form_witness :
  let data := AntennaData.mk "dipole" 14.2 1 0.3 0.25 50 "copper" 2.0 "1:1" in
  0 < AntennaData.frequency data
  /\ EarlierPage.calculateResonantFrequency data == 1.9 * 14.2.
Proof.
  cbv zeta. split; [reflexivity|].
  apply (proj1 (resonant_frequency_closed_form
                  (AntennaData.mk "dipole" 14.2 1 0.3 0.25 50 "copper" 2.0 "1:1")
                  eq_refl)).
  reflexivity.
Defined.

End EarlierPageProperties.

Lemma dipole_feed_impedance_witness :
  let data := AntennaData.mk "dipole" 14.2 1 0.5 0.25 33 "copper" 2.0 "4:1" in
  AntennaData.type data = "dipole"%string
  /\ EarlierPage.calculateFeedImpedance (fun _ => 0%Q) data = 753%Z
  /\ (73 <= EarlierPage.calculateFeedImpedance (fun _ => 0%Q) data <= 2073)%Z.
Proof.
  cbv zeta. split; [reflexivity|]. split; [reflexivity|].
  apply (dipole_feed_impedance (fun _ => 0%Q)
           (AntennaData.mk "dipole" 14.2 1 0.5 0.25 33 "copper" 2.0 "4:1"));
    [reflexivity | split; discriminate].
Defined.

(* ================================================================== *)
(** * The visualization component                                     *)
(* ================================================================== *)

Section ComponentProperties.
Import JS.

Lemma for_loop_snoc_map {A : Type} (f : nat -> A) (start bound : nat) (init : list A) :
  for_loop start bound (fun i acc => acc ++ [f i]) init
  = init ++ map f (seq start (bound - start)).
Proof.
  unfold for_loop. generalize (seq start (bound - start)). intros ns. revert init.
  induction ns as [|n ns IH]; intros init; simpl.
  - now rewrite app_nil_r.
  - rewrite IH, <- app_assoc. reflexivity.
Qed.

Lemma for_range_push_map (f : nat -> Q) (start bound : nat) (init : list Q) :
  for_range start bound (fun i acc => push acc (f i)) init
  = init ++ map f (seq start (bound - start)).
Proof. exact (for_loop_snoc_map f start bound init). Qed.

Lemma map_seq_sorted {A : Type} (R : A -> A -> Prop) (f : nat -> A) (start len : nat) :
  (forall i j, (start <= i < j)%nat -> (j < start + len)%nat -> R (f i) (f j)) ->
  StronglySorted R (map f (seq start len)).
Proof.
  revert start. induction len as [|len IH]; intros start H; simpl; [constructor|].
  constructor.
  - apply IH. intros i j Hij Hj. apply H; lia.
  - apply Forall_forall. intros y Hy. apply in_map_iff in Hy.
    destruct Hy as (j & <- & Hj). apply in_seq in Hj. apply H; lia.
Qed.

Lemma curvePositions_map (wireLength : Q) :
  AntennaVisualization.curvePositions wireLength = map (curvePoint wireLength) (seq 0 50).
Proof.
  exact (for_range_push_map (curvePoint wireLength) 0 50 []).
Qed.

Lemma curvePoint_step (wireLength : Q) (i j : nat) :
  curvePoint wireLength j - curvePoint wireLength i
  == (num j - num i) * wireLength * (1 # 49).
Proof. unfold curvePoint. change (num 50 - 1) with 49. field. Qed.

(** X23. The 50 sample positions of [createCurrentVoltageCurves] run from
    one wire end to the other: the first is [-wireLength/2], the last is
    [+wireLength/2], and for a positive wire length they are strictly
    increasing. *)
Theorem curve_positions_span_the_wire (wireLength : Q) :
  List.length (AntennaVisualization.curvePositions wireLength) = 50%nat
  /\ nth 0 (AntennaVisualization.curvePositions wireLength) 0 == - (wireLength / 2)
  /\ nth 49 (AntennaVisualization.curvePositions wireLength) 0 == wireLength / 2
  /\ (0 < wireLength ->
      strictly_increasing (AntennaVisualization.curvePositions wireLength)).
Proof.
  rewrite curvePositions_map. split; [|split; [|split]].
  - rewrite length_map, length_seq. reflexivity.
  - change (nth 0 (map (curvePoint wireLength) (seq 0 50)) 0)
      with (curvePoint wireLength 0).
    unfold curvePoint. change (num 0) with 0. change (num 50 - 1) with 49. field.
  - change (nth 49 (map (curvePoint wireLength) (seq 0 50)) 0)
      with (curvePoint wireLength 49).
    unfold curvePoint. change (num 49) with 49. change (num 50 - 1) with 49. field.
  - intros Hl. apply map_seq_sorted. intros i j Hij _.
    pose proof (curvePoint_step wireLength i j) as E.
    assert (Hn : 0 < num j - num i).
    { assert (num i < num j) by (apply num_lt; lia). lra. }
    assert (Hp : 0 < (num j - num i) * wireLength) by (apply Qmult_lt_0_compat; assumption).
    lra.
Qed.

Lemma curve_positions_span_the_wire_witness :
  0 < 10.6
  /\ nth 49 (AntennaVisualization.curvePositions 10.6) 0 == 5.3
  /\ strictly_increasing (AntennaVisualization.curvePositions 10.6).
Proof.
  split; [reflexivity|]. split; [reflexivity|].
  apply (curve_positions_span_the_wire 10.6). reflexivity.
Defined.

End ComponentProperties.

Section YagiProperties.
Import JS.

Variable antennaData : AntennaData.t.

Let L := AntennaData.elementLength antennaData.
Let spacing := AntennaData.elementSpacing antennaData.
Let n := AntennaData.elements antennaData.
Let boomLength := AntennaVisualization.yagiBoomLength antennaData.

Lemma yagiElements_map :
  AntennaVisualization.yagiElements antennaData
  = map (yagiElement antennaData) (seq 0 (Z.to_nat n)).
Proof.
  change (AntennaVisualization.yagiElements antennaData)
    with (for_loop 0 (Z.to_nat n) (fun i acc => acc ++ [yagiElement antennaData i]) []).
  rewrite for_loop_snoc_map, Nat.sub_0_r. reflexivity.
Qed.

Lemma yagi_length_positive (i : nat) :
  0 < L -> (i < 50)%nat -> 0 < cylinderLength (yagiElement antennaData i).
Proof.
  intros Hl Hi. unfold yagiElement. cbn [cylinderLength]. fold L.
  destruct (Nat.eqb_spec i 0); [lra|]. destruct (Nat.eqb_spec i 1); [lra|].
  assert (Hn : num i <= num 49) by (apply num_le; lia). change (num 49) with 49 in Hn.
  apply Qmult_lt_0_compat; lra.
Qed.

Lemma yagi_length_decreasing (i j : nat) :
  0 < L -> (i < j)%nat ->
  cylinderLength (yagiElement antennaData j) < cylinderLength (yagiElement antennaData i).
Proof.
  intros Hl Hij. unfold yagiElement. cbn [cylinderLength]. fold L.
  assert (Hnum : num i < num j) by (apply num_lt; exact Hij).
  assert (Hj2 : forall m, (2 <= m)%nat -> 2 <= num m).
  { intros m Hm. change 2 with (num 2). apply num_le. exact Hm. }
  destruct (Nat.eqb_spec j 0); [lia|].
  destruct (Nat.eqb_spec i 0).
  - destruct (Nat.eqb_spec j 1); [lra|].
    pose proof (Hj2 j ltac:(lia)).
    assert (0 <= L * ((num j - 2) * 0.02)) by (apply Qmult_le_0_compat; lra).
    lra.
  - destruct (Nat.eqb_spec j 1); [lia|].
    destruct (Nat.eqb_spec i 1).
    + pose proof (Hj2 j ltac:(lia)).
      assert (0 <= L * ((num j - 2) * 0.02)) by (apply Qmult_le_0_compat; lra).
      lra.
    + assert (0 < L * ((num j - num i) * 0.02)) by (apply Qmult_lt_0_compat; lra).
      lra.
Qed.

(** X24. For a Yagi with positive element length, non-negative spacing and
    between 1 and 50 elements, [createYagiAntenna] adds as many elements as
    asked for; every element has a positive length and sits on the boom,
    between [-boomLength/2] and [boomLength/2]; and along the boom each later
    element is strictly shorter than each earlier one. *)
Theorem yagi_elements_on_boom_and_shrinking :
  0 < L -> 0 <= spacing -> (1 <= n <= 50)%Z ->
  Z.of_nat (List.length (AntennaVisualization.yagiElements antennaData)) = n
  /\ (forall e, In e (AntennaVisualization.yagiElements antennaData) ->
        0 < cylinderLength e /\ - boomLength / 2 <= xPos e <= boomLength / 2)
  /\ StronglySorted shorter_and_further (AntennaVisualization.yagiElements antennaData).
Proof.
  intros Hl Hs Hn. rewrite yagiElements_map. split; [|split].
  - rewrite length_map, length_seq. lia.
  - intros e He. apply in_map_iff in He. destruct He as (i & <- & Hi).
    apply in_seq in Hi. split; [apply yagi_length_positive; [exact Hl | lia]|].
    unfold yagiElement. cbn [xPos]. fold boomLength spacing.
    assert (Hb : boomLength == (inject_Z n - 1) * spacing + 0.5) by reflexivity.
    assert (Hi0 : 0 <= num i) by apply num_nonneg.
    assert (Hin : num i <= inject_Z n - 1).
    { assert (Hz : (Z.of_nat i <= n - 1)%Z) by lia.
      rewrite Zle_Qle in Hz. unfold Zminus in Hz. rewrite inject_Z_plus in Hz.
      unfold num. change (inject_Z (- (1))) with (- (1)) in Hz. lra. }
    assert (H1 : 0 <= num i * spacing) by (apply Qmult_le_0_compat; assumption).
    assert (H2 : 0 <= (inject_Z n - 1 - num i) * spacing)
      by (apply Qmult_le_0_compat; lra).
    unfold Qdiv. change (/ 2) with (1 # 2). split; lra.
  - apply map_seq_sorted. intros i j Hij _. split.
    + apply yagi_length_decreasing; [exact Hl | lia].
    + unfold yagiElement. cbn [xPos]. fold spacing.
      assert (Hnum : num i <= num j) by (apply num_le; lia).
      assert (0 <= (num j - num i) * spacing) by (apply Qmult_le_0_compat; lra).
      lra.
Qed.

End YagiProperties.

Lemma yagi_elements_on_boom_and_shrinking_witness :
  let data := AntennaData.mk "yagi" 144 5 1.0 0.25 50 "aluminum" 3.0 "1:1" in
  (0 < 1.0 /\ 0 <= 0.25 /\ (1 <= 5 <= 50)%Z)
  /\ Z.of_nat (List.length (AntennaVisualization.yagiElements data)) = 5%Z
  /\ StronglySorted shorter_and_further (AntennaVisualization.yagiElements data).
Proof.
  cbv zeta. split; [split; [reflexivity | split; [discriminate | lia]]|].
  destruct (yagi_elements_on_boom_and_shrinking
              (AntennaData.mk "yagi" 144 5 1.0 0.25 50 "aluminum" 3.0 "1:1"))
    as (H1 & _ & H3); [reflexivity | discriminate | simpl; lia |].
  split; [exact H1 | exact H3].
Defined.

Section FeedMarker.
Import JS.

(** X25. The feed point marker the visualization draws, at
    [(feedPosition - 0.5) * length], is for every model one of the current
    antinodes the library calculator reports for it. *)
Theorem feed_marker_is_current_antinode (model : AntennaModel.t) :
  contains (AntennaVisualization.feedMarker model)
           (antinodes (current (NodesCalculator.calculateNodesAndAntinodes model))).
Proof.
  unfold NodesCalculator.calculateNodesAndAntinodes. cbn [antinodes current].
  apply lib_currentAntinodes_contains. left.
  unfold AntennaVisualization.feedMarker.
  set (fp := AntennaModel.feedPosition model). set (len := AntennaModel.length model).
  assert (Hat : forall c, fp == c -> (fp - 0.5) * len == (c - 0.5) * len).
  { intros c Hc. apply Qmult_comp; [|reflexivity]. rewrite Hc. reflexivity. }
  destruct (Qeq_bool fp 0.5) eqn:E5.
  { apply Qeq_bool_iff in E5. rewrite (Hat _ E5). ring. }
  destruct (Qeq_bool fp 0) eqn:E0.
  { apply Qeq_bool_iff in E0. cbn [orb]. rewrite (Hat _ E0). field. }
  destruct (Qeq_bool fp 1) eqn:E1.
  { apply Qeq_bool_iff in E1. cbn [orb]. rewrite (Hat _ E1). field. }
  reflexivity.
Qed.

End FeedMarker.

Section GuidanceTarget.
Import JS.

Variable model : AntennaModel.t.

Let X := reactance (AntennaModel.calculateImpedance model).
Let R := resistance (AntennaModel.calculateImpedance model).
Let lambda := AntennaModel.wavelength model.
Let currentLength := AntennaModel.length model.

(** X26. For a non-resonant impedance and a positive wavelength the target
    length in the guidance is longer than the wire when reactance < -15 and
    shorter when reactance > 15; in the latter case it is not kept above
    zero: it is negative exactly when reactance * wavelength exceeds
    3770 * length. *)
Theorem guidance_target_length :
  0 < lambda -> Qmax 15 (0.2 * R) <= Qabs X ->
  (X < -15 ->
   exists a t, guidance (NodesCalculator.getResonanceGuidance model) = TooShort a t
               /\ currentLength < t)
  /\ (15 < X ->
      exists a t, guidance (NodesCalculator.getResonanceGuidance model) = TooLong a t
                  /\ t < currentLength
                  /\ (t < 0 <-> 3770 * currentLength < X * lambda)).
Proof.
  intros Hl Hnot. apply PhysicsUtils_not_resonant_iff in Hnot. split; intros Hx.
  - rewrite (guidance_too_short model Hnot Hx). cbv zeta. cbn [guidance].
    eexists. eexists. split; [reflexivity|].
    fold X lambda currentLength.
    assert (Ha : 0 < Qabs X / 377 * lambda * 0.1).
    { assert (0 < Qabs X / 377).
      { apply Qlt_shift_div_l; [reflexivity|]. pose proof (Qabs_nonneg X).
        assert (15 < Qabs X) by (rewrite Qabs_neg by lra; lra). lra. }
      apply Qmult_lt_0_compat; [|reflexivity]. apply Qmult_lt_0_compat; assumption. }
    lra.
  - rewrite (guidance_too_long model Hnot Hx). cbv zeta. cbn [guidance].
    eexists. eexists. split; [reflexivity|].
    fold X lambda currentLength.
    assert (E : X / 377 * lambda * 0.1 == X * lambda * (1 # 3770)) by field.
    assert (Hp : 0 < X * lambda) by (apply Qmult_lt_0_compat; lra).
    rewrite E. split; [lra|]. split; intros H; lra.
Qed.

End GuidanceTarget.

Lemma guidance_target_length_witness :
  let model := AntennaModel.mk 10 1.8 0.5 0.0377 0.06 166.55 (mkImpedance 0.5 5000) in
  (0 < 166.55 /\ Qmax 15 (0.2 * 0.5) <= Qabs 5000 /\ 15 < 5000)
  /\ 3770 * 10 < 5000 * 166.55
  /\ exists a t, guidance (NodesCalculator.getResonanceGuidance model) = TooLong a t
                 /\ t < 0.
Proof.
  cbv zeta. split; [split; [reflexivity | split; [discriminate | reflexivity]]|].
  split; [reflexivity|].
  destruct (proj2 (guidance_target_length
                     (AntennaModel.mk 10 1.8 0.5 0.0377 0.06 166.55 (mkImpedance 0.5 5000))
                     eq_refl ltac:(discriminate)) eq_refl)
    as (a & t & Hg & _ & Hneg).
  exists a, t. split; [exact Hg|]. apply Hneg. reflexivity.
Defined.
